(** * MultiPL-E task adapter ([lm_eval/tasks/multiple.py])

    A shallow embedding of the task class [GeneralMultiPLE]: the stop-word
    truncation of generations ([remove_last_block], [postprocess_generation]),
    the task constructor, and [process_results] with the file system, the
    standard output and the calls to the external evaluator as explicit
    state. *)

From Stdlib Require Import String Ascii List ZArith QArith Lia.
From stdpp Require Import base option gmap strings list pretty.
From Equations Require Import Equations.

(** ** Strings *)

Module Str.

(** The newline character, written ["\n"] in the Python source. *)
Definition nl : string := String (ascii_of_nat 10) "".

Definition is_empty (s : string) : bool :=
  match s with EmptyString => true | String _ _ => false end.

(** [strip_prefix w s] is [Some rest] when [s = w +:+ rest]. *)
Fixpoint strip_prefix (w s : string) : option string :=
  match w, s with
  | EmptyString, _ => Some s
  | String a w', String b s' =>
      if Ascii.eqb a b then strip_prefix w' s' else None
  | String _ _, EmptyString => None
  end.

(** [s.endswith(suffix)] *)
Definition endswith (s suffix : string) : bool :=
  (String.length suffix <=? String.length s)%nat
  && String.eqb
       (String.substring (String.length s - String.length suffix)
          (String.length suffix) s)
       suffix.

(** [c in s] for a one-character [c]. *)
Fixpoint contains_char (c : ascii) (s : string) : bool :=
  match s with
  | EmptyString => false
  | String a s' => Ascii.eqb a c || contains_char c s'
  end.

(** [s.split(sep)] for a one-character separator: the pieces between the
    occurrences of [sep], always at least one piece. *)
Fixpoint split_char (sep : ascii) (s : string) : list string :=
  match s with
  | EmptyString => [""]
  | String a s' =>
      if Ascii.eqb a sep then "" :: split_char sep s'
      else
        match split_char sep s' with
        | piece :: pieces => String a piece :: pieces
        | [] => [String a ""]
        end
  end.

(** [sep.join(l)] *)
Definition join (sep : string) (l : list string) : string :=
  String.concat sep l.

Lemma app_nil_l (s : string) : "" +:+ s = s.
Proof. reflexivity. Qed.

Lemma app_cons a (s t : string) : String a s +:+ t = String a (s +:+ t).
Proof. reflexivity. Qed.

Lemma app_nil_r (s : string) : s +:+ "" = s.
Proof. induction s as [|a s IH]; [done|]. by rewrite app_cons, IH. Qed.

Lemma app_assoc (a b c : string) : (a +:+ b) +:+ c = a +:+ b +:+ c.
Proof.
  induction a as [|x a IH]; [done|]. by rewrite !app_cons, IH.
Qed.

Lemma length_app (a b : string) :
  String.length (a +:+ b) = String.length a + String.length b.
Proof.
  induction a as [|x a IH]; [done|]. rewrite app_cons. simpl. by rewrite IH.
Qed.

Lemma strip_prefix_Some w s rest :
  strip_prefix w s = Some rest ↔ s = w +:+ rest.
Proof.
  revert s; induction w as [|a w IH]; intros s; simpl.
  - rewrite app_nil_l. split; congruence.
  - rewrite app_cons. destruct s as [|b s]; [split; discriminate|].
    destruct (Ascii.eqb_spec a b) as [->|Hne].
    + rewrite IH. split; [intros ->; reflexivity | congruence].
    + split; [discriminate | congruence].
Qed.

Lemma strip_prefix_app w rest : strip_prefix w (w +:+ rest) = Some rest.
Proof. by apply strip_prefix_Some. Qed.

(** Two ways of cutting one string: the shorter first part is a prefix of
    the longer one. *)
Lemma app_eq_app (a b c d : string) :
  a +:+ b = c +:+ d →
  String.length a ≤ String.length c →
  ∃ x, c = a +:+ x ∧ b = x +:+ d.
Proof.
  revert c; induction a as [|x a IH]; intros c Heq Hlen.
  - exists c. by rewrite app_nil_l in *.
  - destruct c as [|y c]; [simpl in Hlen; lia|].
    rewrite !app_cons in Heq. injection Heq as -> Heq.
    destruct (IH c Heq) as (z & -> & ->); [simpl in Hlen; lia|].
    by exists z.
Qed.

End Str.

(** ** The regular-expression split of [re.split]

    [remove_last_block] calls [re.split("(%s)" % "|".join(stop_words), string)].
    For stop words without regular-expression metacharacters the pattern is
    an ordered alternation of literals inside one capturing group.  The
    engine looks for the leftmost position where an alternative matches,
    trying the alternatives in the order they are written; [re.split] then
    returns the text before the match, the captured match, and goes on
    after the match.  After an empty match the next match may not be empty
    at the same position ([must_advance] in the engine). *)

Module Re.

(** The characters the [re] module reads as operators. *)
Definition metachars : string := ".^$*+?{}[]\|()".

Fixpoint literal (w : string) : bool :=
  match w with
  | EmptyString => true
  | String a w' => negb (Str.contains_char a metachars) && literal w'
  end.

(** The alternatives of the pattern [(w1|...|wn)]; the empty list of stop
    words gives the pattern [()], one empty alternative. *)
Definition alternatives (stop_words : list string) : list string :=
  match stop_words with [] => [""] | _ :: _ => stop_words end.

(** The first alternative that matches at the start of [s], with the rest
    of [s]; under [adv] an empty match is refused and the next alternative
    is tried. *)
Fixpoint match_here (alts : list string) (adv : bool) (s : string)
  : option (string * string) :=
  match alts with
  | [] => None
  | w :: alts' =>
      match Str.strip_prefix w s with
      | Some rest =>
          if adv && Str.is_empty w then match_here alts' adv s
          else Some (w, rest)
      | None => match_here alts' adv s
      end
  end.

(** [pattern.search]: the leftmost match in [s], as (text before, match,
    text after).  [adv] only constrains the first position. *)
Fixpoint search (alts : list string) (adv : bool) (s : string)
  : option (string * string * string) :=
  match match_here alts adv s with
  | Some (w, rest) => Some ("", w, rest)
  | None =>
      match s with
      | EmptyString => None
      | String c s' =>
          match search alts false s' with
          | Some (pre, w, post) => Some (String c pre, w, post)
          | None => None
          end
      end
  end.

Definition inspect {A} (x : A) : {y : A | x = y} := exist _ x eq_refl.

Definition split_measure (adv : bool) (s : string) : nat :=
  2 * String.length s + (if adv then 0 else 1).

Lemma match_here_Some alts adv s w rest :
  match_here alts adv s = Some (w, rest) →
  w ∈ alts ∧ s = w +:+ rest ∧ (adv = true → w ≠ "").
Proof.
  induction alts as [|a alts IH]; simpl; [discriminate|].
  destruct (Str.strip_prefix a s) as [r|] eqn:E.
  - destruct (adv && Str.is_empty a) eqn:B.
    + intros H. destruct (IH H) as (? & ? & ?). split; [by right|done].
    + intros [= <- <-]. apply Str.strip_prefix_Some in E.
      split; [by left|]. split; [done|]. intros -> ->. done.
  - intros H. destruct (IH H) as (? & ? & ?). split; [by right|done].
Qed.

Lemma search_Some alts adv s pre w post :
  search alts adv s = Some (pre, w, post) →
  w ∈ alts ∧ s = pre +:+ w +:+ post ∧ (adv = true → pre = "" → w ≠ "").
Proof.
  revert adv pre; induction s as [|c s IH]; intros adv pre; simpl.
  - destruct (match_here alts adv "") as [[w' r]|] eqn:E; [|discriminate].
    intros [= <- <- <-]. apply match_here_Some in E as (? & ? & ?).
    rewrite Str.app_nil_l. auto.
  - destruct (match_here alts adv (String c s)) as [[w' r]|] eqn:E.
    + intros [= <- <- <-]. apply match_here_Some in E as (? & ? & ?).
      rewrite Str.app_nil_l. auto.
    + destruct (search alts false s) as [[[p w'] q]|] eqn:E'; [|discriminate].
      intros [= <- <- <-]. destruct (IH _ _ E') as (? & -> & ?).
      rewrite Str.app_cons. split; [done|]. split; [done|]. discriminate.
Qed.

Lemma search_measure alts adv s pre w post :
  search alts adv s = Some (pre, w, post) →
  (split_measure (Str.is_empty w) post < split_measure adv s)%nat.
Proof.
  intros H. apply search_Some in H as (_ & -> & Hadv).
  unfold split_measure. rewrite !Str.length_app.
  destruct w as [|a w]; simpl.
  - destruct pre as [|b pre]; simpl; [|lia].
    destruct adv; [|lia]. exfalso. by apply Hadv.
  - lia.
Qed.

(** [re.split] from a position: the pieces and captured delimiters in
    order.  The measure drops at every match: a match that consumes text
    shortens the rest, an empty match at the start sets [adv]. *)
Equations? split_from (alts : list string) (adv : bool) (s : string)
  : list string by wf (split_measure adv s) lt :=
  split_from alts adv s with inspect (search alts adv s) := {
    | exist _ None _ => [s]
    | exist _ (Some (pre, w, post)) H =>
        pre :: w :: split_from alts (Str.is_empty w) post }.
Proof. by eapply search_measure. Qed.

(** [re.split("(%s)" % "|".join(stop_words), s)] *)
Definition split (stop_words : list string) (s : string) : list string :=
  split_from (alternatives stop_words) false s.

End Re.

(** ** Occurrences of stop markers *)

Module Occ.

(** A stop marker occurs in [s] at offset [n]. *)
Definition occurs_at (stop_words : list string) (s : string) (n : nat) : Prop :=
  ∃ pre w post,
    w ∈ stop_words ∧ s = pre +:+ w +:+ post ∧ String.length pre = n.

Definition contains_marker (stop_words : list string) (s : string) : Prop :=
  ∃ n, occurs_at stop_words s n.

Definition first_occurrence (stop_words : list string) (s : string) (n : nat)
  : Prop :=
  occurs_at stop_words s n ∧ ∀ m, occurs_at stop_words s m → (n ≤ m)%nat.

Definition last_occurrence (stop_words : list string) (s : string) (n : nat)
  : Prop :=
  occurs_at stop_words s n ∧ ∀ m, occurs_at stop_words s m → (m ≤ n)%nat.

(** [s[:n]] *)
Definition prefix (s : string) (n : nat) : string := String.substring 0 n s.

(** Every marker starts with the character [c], which occurs nowhere else in
    it: two occurrences of such markers never overlap. *)
Definition headed (c : ascii) (w : string) : bool :=
  match w with
  | EmptyString => false
  | String a t => Ascii.eqb a c && negb (Str.contains_char c t)
  end.

(** Decision procedure for [contains_marker], by search. *)
Definition has_marker (stop_words : list string) (s : string) : bool :=
  match Re.search stop_words false s with Some _ => true | None => false end.

End Occ.

(** ** Python values, exceptions and subscription *)

Module Py.

Inductive exn :=
| TypeError
| AttributeError
| KeyError
| IndexError
| ValueError.

Inductive result (A : Type) :=
| Ok (a : A)
| Raise (e : exn).
Arguments Ok {A} a.
Arguments Raise {A} e.

Definition result_bind {A B} (r : result A) (k : A → result B) : result B :=
  match r with
  | Ok a => k a
  | Raise e => Raise e
  end.

(** The values the task handles: dataset records are dictionaries with
    string keys, and a problem is written to its file as such a value. *)
#[warnings="-register-all"]
Inductive value :=
| VStr (s : string)
| VInt (z : Z)
| VList (l : list value)
| VTuple (l : list value)
| VDict (d : gmap string value).

Inductive key :=
| KStr (s : string)
| KInt (i : Z).

(** A sequence index [i] of a sequence of length [n], counted from the end
    when negative. *)
Definition norm_index (n : nat) (i : Z) : option nat :=
  if (0 <=? i)%Z then
    (if (i <? Z.of_nat n)%Z then Some (Z.to_nat i) else None)
  else
    (if (- Z.of_nat n <=? i)%Z then Some (Z.to_nat (Z.of_nat n + i)) else None).

(** [l[i]] on a list or tuple. *)
Definition seq_getitem {A} (l : list A) (i : Z) : result A :=
  match norm_index (length l) i ≫= (λ j, l !! j) with
  | Some x => Ok x
  | None => Raise IndexError
  end.

(** [v[k]]: a dictionary is looked up by key, a sequence by position; a
    sequence subscripted with a string raises [TypeError] ("tuple indices
    must be integers or slices, not str"). *)
Definition getitem (v : value) (k : key) : result value :=
  match v, k with
  | VDict d, KStr s =>
      match d !! s with Some x => Ok x | None => Raise KeyError end
  | VDict _, KInt _ => Raise KeyError
  | VTuple l, KInt i => seq_getitem l i
  | VList l, KInt i => seq_getitem l i
  | VTuple _, KStr _ => Raise TypeError
  | VList _, KStr _ => Raise TypeError
  | VStr s, KInt i =>
      match norm_index (String.length s) i ≫= (λ j, String.get j s) with
      | Some c => Ok (VStr (String c ""))
      | None => Raise IndexError
      end
  | VStr _, KStr _ => Raise TypeError
  | VInt _, _ => Raise TypeError
  end.

(** The objects a module-level name of [multiple.py] can be bound to, as far
    as attribute lookup is concerned. *)
Inductive pyobj :=
| BuiltinFunction (module name : string)
| SpecialAttribute (owner : string) (attr : string).

(** The attributes of a [builtin_function_or_method] object ([dir] of one). *)
Definition builtin_function_attrs : list string :=
  ["__call__"; "__class__"; "__delattr__"; "__dir__"; "__doc__"; "__eq__";
   "__format__"; "__ge__"; "__getattribute__"; "__getstate__"; "__gt__";
   "__hash__"; "__init__"; "__init_subclass__"; "__le__"; "__lt__";
   "__module__"; "__name__"; "__ne__"; "__new__"; "__qualname__";
   "__reduce__"; "__reduce_ex__"; "__repr__"; "__self__"; "__setattr__";
   "__sizeof__"; "__str__"; "__subclasshook__"; "__text_signature__"].

(** [obj.attr].  A builtin function object carries only its special
    attributes; any other name raises [AttributeError].  What a special
    attribute holds is outside the model: [SpecialAttribute] stands for it
    and has no attribute of its own here. *)
Definition getattr (o : pyobj) (attr : string) : result pyobj :=
  match o with
  | BuiltinFunction m n =>
      if bool_decide (attr ∈ builtin_function_attrs)
      then Ok (SpecialAttribute (m +:+ "." +:+ n) attr)
      else Raise AttributeError
  | SpecialAttribute _ _ => Raise AttributeError
  end.

(** [from time import time]: the name [time] of the module's namespace is
    the function, not the module. *)
Definition time : pyobj := BuiltinFunction "time" "time".

(** [os.path.join(a, b)] of [posixpath]. *)
Definition os_path_join (a b : string) : string :=
  if Str.strip_prefix "/" b is Some _ then b
  else if Str.is_empty a || Str.endswith a "/" then a +:+ b
  else a +:+ "/" +:+ b.

(** [zip(a, b, c)] stops with the shortest argument. *)
Fixpoint zip3 {A B C} (a : list A) (b : list B) (c : list C)
  : list (A * B * C) :=
  match a, b, c with
  | x :: a', y :: b', z :: c' => (x, y, z) :: zip3 a' b' c'
  | _, _, _ => []
  end.

(** [l[:-k]] *)
Definition drop_last {A} (k : nat) (l : list A) : list A :=
  take (length l - k) l.

End Py.

(** ** The task class [GeneralMultiPLE] *)

Module MultiPLE.
Import Py.

Definition LANGUAGES : list string :=
  ["py"; "bs"; "cpp"; "cs"; "d"; "go"; "java"; "js"; "jl"; "lua"; "pl";
   "php"; "r"; "rkt"; "rb"; "rs"; "scala"; "swift"; "ts"].

Definition DATASET_PATH : string := "nuprl/MultiPL-E".

(** An instance: the attributes [__init__] and the base class set. *)
Record Task := mkTask {
  language : string;
  DATASET_NAME : string;
  stop_words : list string;
  requires_execution : bool;
  dataset : gmap string (list value)
}.

(** [remove_last_block]: split on the stop words, keeping the delimiters,
    drop the last two elements and join the rest. *)
Definition remove_last_block (s : string) (stop_words : list string)
  : string :=
  let string_list := Re.split stop_words s in
  Str.join "" (drop_last 2 string_list).

Definition postprocess_generation (self : Task) (generation : string)
  (idx : Z) : string :=
  remove_last_block generation (stop_words self).

(** [get_dataset]: [self.dataset["test"]]. *)
Definition get_dataset (self : Task) : result (list value) :=
  match dataset self !! "test" with
  | Some rows => Ok rows
  | None => Raise KeyError
  end.

(** [get_reference]: [doc["tests"]]. *)
Definition get_reference (self : Task) (doc : value) : result value :=
  getitem doc (KStr "tests").

(** The list comprehension at the head of [process_results]:
    [(doc["prompt"], doc["name"])] for the documents whose position is below
    [n], the documents being visited in order from position [i]. *)
Fixpoint prompts_names_from (i n : nat) (docs : list value)
  : result (list value) :=
  match docs with
  | [] => Ok []
  | doc :: docs' =>
      if (i <? n)%nat then
        result_bind (getitem doc (KStr "prompt")) (λ prompt,
        result_bind (getitem doc (KStr "name")) (λ name,
        result_bind (prompts_names_from (S i) n docs') (λ rest,
        Ok (VTuple [prompt; name] :: rest))))
      else prompts_names_from (S i) n docs'
  end.

(** [cpu_count() - 1 if cpu_count() > 1 else 1] *)
Definition max_workers_of (cpu_count : Z) : Z :=
  if (cpu_count >? 1)%Z then (cpu_count - 1)%Z else 1%Z.

(** A file of the directory [dir] whose name matches [*.results.json];
    the pattern does not cross a [/], so files of subdirectories do not
    match. *)
Definition matches_results (dir path : string) : bool :=
  match Str.strip_prefix (os_path_join dir "") path with
  | Some name =>
      negb (Str.is_empty name)
      && negb (Str.contains_char "/" name)
      && Str.endswith name ".results.json"
  | None => false
  end.

(** [Path(dir).glob("*.results.json")] on a file system keyed by path. *)
Definition glob_results {V} (dir : string) (fs : gmap string V) : list string :=
  filter (λ path, matches_results dir path = true) (map_to_list fs).*1.

(** *** The run-time environment and the external collaborators *)

Section Run.

(** The element type of the score vectors (Python floats), with the
    addition and the division by a count that [numpy] uses for a mean, and
    the value [numpy] gives for the mean of nothing. *)
Context {R : Type}.
Variable radd : R → R → R.
Variable rdiv : R → nat → R.
Variable nan : R.

(** [datasets.load_dataset(path, name)]: the partitions of a data set. *)
Variable load_dataset : string → string → gmap string (list value).

(** The external evaluator [evaluate_problem(output_dir, file, max_workers)],
    as its effect on the file system. *)
Variable evaluate_problem :
  string → string → Z → gmap string value → result (gmap string value).

(** The external estimator [for_file(path)], reading the file system. *)
Variable for_file : gmap string value → string → list R.

(** [str(v)] of a value that is not a string. *)
Variable py_repr : value → string.

(** Lines written to the standard output, with the values they format. *)
Inductive line :=
| LSavedGenerations (n : nat) (name : string) (file : string)
| LSavedProblems (n : nat) (temp_dir : string)
| LEvaluating (file : string)
| LExecutionTook (start_t end_t : R)
| LResultsSavedIn (output_dir : string)
| LScore (name : string) (k : Z) (v : R)
| LResults (results : gmap string R).

(** A call of the external evaluator. *)
Record call := mkCall {
  call_output_dir : string;
  call_file : string;
  call_max_workers : Z
}.

(** What the function reads and changes outside itself. *)
Record world := mkWorld {
  fs : gmap string value;
  stdout : list line;
  evaluated : list call;
  clock : R;
  tempdir : string;
  cpus : Z
}.

Definition M (A : Type) : Type := world → result A * world.

Definition ret {A} (a : A) : M A := λ w, (Ok a, w).

Definition bind {A B} (m : M A) (k : A → M B) : M B :=
  λ w, match m w with
       | (Ok a, w') => k a w'
       | (Raise e, w') => (Raise e, w')
       end.

Definition lift {A} (r : result A) : M A := λ w, (r, w).

#[local] Instance M_ret : MRet M := @ret.
#[local] Instance M_bind : MBind M := λ A B k m, bind m k.

Definition print (l : line) : M unit :=
  λ w, (Ok tt,
        mkWorld (fs w) (stdout w ++ [l]) (evaluated w) (clock w) (tempdir w)
          (cpus w)).

(** [with open(path, "wt") as f: json.dump(v, f)] *)
Definition json_dump_to (path : string) (v : value) : M unit :=
  λ w, (Ok tt,
        mkWorld (<[path := v]> (fs w)) (stdout w) (evaluated w) (clock w)
          (tempdir w) (cpus w)).

Definition gettempdir : M string := λ w, (Ok (tempdir w), w).

Definition cpu_count : M Z := λ w, (Ok (cpus w), w).

Definition read_fs : M (gmap string value) := λ w, (Ok (fs w), w).

(** Calling an object: only the clock function of [time] is callable here. *)
Definition call_float (f : pyobj) : M R :=
  match f with
  | BuiltinFunction "time" "time" => λ w, (Ok (clock w), w)
  | _ => lift (Raise TypeError)
  end.

Definition call_evaluate_problem (output_dir file : string) (max_workers : Z)
  : M unit :=
  λ w,
    let calls := evaluated w ++ [mkCall output_dir file max_workers] in
    match evaluate_problem output_dir file max_workers (fs w) with
    | Ok fs' =>
        (Ok tt, mkWorld fs' (stdout w) calls (clock w) (tempdir w) (cpus w))
    | Raise e =>
        (Raise e,
         mkWorld (fs w) (stdout w) calls (clock w) (tempdir w) (cpus w))
    end.

(** A [for] loop whose body updates a local variable. *)
Fixpoint for_fold {A S} (xs : list A) (acc : S) (body : S → A → M S) : M S :=
  match xs with
  | [] => ret acc
  | x :: xs' => acc' ← body acc x ; for_fold xs' acc' body
  end.

Fixpoint for_each {A} (xs : list A) (body : A → M unit) : M unit :=
  match xs with
  | [] => ret tt
  | x :: xs' => body x ;; for_each xs' body
  end.

(** [f"{v}"] *)
Definition py_str (v : value) : string :=
  match v with
  | VStr s => s
  | _ => py_repr v
  end.

(** *** Construction *)

(** Modelled from the spec: the constructor of the base class [Task] of
    [lm_eval/base.py], which is not among the sources.  It keeps the stop
    words and the execution flag, associates the data set partition named by
    [DATASET_NAME], and has no error condition. *)
Definition Task_init (language DATASET_NAME : string)
  (stop_words : list string) (requires_execution : bool) : result Task :=
  Ok (mkTask language DATASET_NAME stop_words requires_execution
        (load_dataset DATASET_PATH DATASET_NAME)).

(** [GeneralMultiPLE.__init__] *)
Definition GeneralMultiPLE_init (language : string) : result Task :=
  let DATASET_NAME := "humaneval-" +:+ language in
  let stop_words :=
    [Str.nl +:+ "def"; Str.nl +:+ "#"; Str.nl +:+ "if"; Str.nl +:+ "class"] in
  Task_init language DATASET_NAME stop_words true.

(** [create_task]: the class it returns, as its constructor. *)
Definition create_task (language : string) : unit → result Task :=
  λ _, GeneralMultiPLE_init language.

Definition create_all_tasks : gmap string (unit → result Task) :=
  list_to_map ((λ language, ("multiple-" +:+ language, create_task language))
                 <$> LANGUAGES).

(** *** [process_results] *)

(** The body of the first loop, for one (prompt_name, generation, reference). *)
Definition save_problem (self : Task) (temp_dir : string)
  (list_files : list string) (item : value * list string * string)
  : M (list string) :=
  let '(prompt_name, generation, reference) := item in
  name ← lift (getitem prompt_name (KStr "name"));
  prompt ← lift (getitem prompt_name (KStr "prompt"));
  let problem :=
    VDict (<["tests" := VStr reference]>
           (<["completions" := VList (VStr <$> generation)]>
            (<["prompt" := prompt]>
             (<["language" := VStr (language self)]>
              (<["name" := name]> ∅))))) in
  name1 ← lift (getitem prompt_name (KStr "name"));
  let temp_file_name := os_path_join temp_dir (py_str name1 +:+ ".json") in
  let list_files := list_files ++ [temp_file_name] in
  json_dump_to temp_file_name problem;;
  name2 ← lift (getitem prompt_name (KStr "name"));
  print (LSavedGenerations (length generation) (py_str name2) temp_file_name);;
  ret list_files.

(** The second loop: one call of the evaluator per written file. *)
Definition evaluate_problems (output_dir : string) (max_workers : Z)
  (list_files : list string) : M unit :=
  for_each list_files (λ file,
    print (LEvaluating file);;
    call_evaluate_problem output_dir file max_workers).

(** [np.array(rows)] for a list of vectors: a two-dimensional array when
    the vectors have one length, the empty one-dimensional array for no
    vector. *)
Inductive ndarray :=
| Nd0 (x : R)
| Nd1 (v : list R)
| Nd2 (rows : list (list R)).

Definition np_array (rows : list (list R)) : result ndarray :=
  match rows with
  | [] => Ok (Nd1 [])
  | r :: rs =>
      if forallb (λ r', (length r' =? length r)%nat) rs
      then Ok (Nd2 rows)
      else Raise ValueError
  end.

(** [v.mean()] of a vector: its sum divided by its length, [nan] for the
    empty vector. *)
Definition np_mean (v : list R) : R :=
  match v with
  | [] => nan
  | x :: xs => rdiv (foldl radd x xs) (length v)
  end.

(** [a.mean(axis=0)]: the rows are added up element by element and the sum
    is divided by their number. *)
Definition mean_axis0 (a : ndarray) : result ndarray :=
  match a with
  | Nd0 _ => Raise ValueError
  | Nd1 v => Ok (Nd0 (np_mean v))
  | Nd2 [] => Ok (Nd1 [])
  | Nd2 (r :: rs) =>
      Ok (Nd1 ((λ x, rdiv x (S (length rs))) <$> foldl (zip_with radd) r rs))
  end.

(** [a[i]] where a number is expected. *)
Definition nd_getitem (a : ndarray) (i : Z) : result R :=
  match a with
  | Nd0 _ => Raise IndexError
  | Nd1 v => seq_getitem v i
  | Nd2 _ => Raise TypeError
  end.

(** Iterating over an array of numbers. *)
Definition nd_iter (a : ndarray) : result (list R) :=
  match a with
  | Nd0 _ => Raise TypeError
  | Nd1 v => Ok v
  | Nd2 _ => Raise TypeError
  end.

(** [{f"pass@{k}": v for k, v in items}] *)
Definition pass_dict (items : list (Z * R)) : gmap string R :=
  foldl (λ d kv, <["pass@" +:+ pretty kv.1 := kv.2]> d) ∅ items.

(** The last part of [process_results]: the scores of the result files. *)
Definition compute_pass_k (temp_dir : string) : M (gmap string R) :=
  files ← read_fs;
  result_array ←
    lift (np_array (for_file files <$> glob_results temp_dir files));
  result ← lift (mean_axis0 result_array);
  let parts := Str.split_char "/" temp_dir in
  last ← lift (seq_getitem parts (-1));
  name ← lift (if bool_decide (last ≠ "") then seq_getitem parts (-1)
              else seq_getitem parts (-2));
  r0 ← lift (nd_getitem result 0);
  print (LScore name 1 r0);;
  r1 ← lift (nd_getitem result 1);
  print (LScore name 10 r1);;
  r2 ← lift (nd_getitem result 2);
  print (LScore name 100 r2);;
  values ← lift (nd_iter result);
  let results := pass_dict (zip [1; 10; 100]%Z values) in
  print (LResults results);;
  ret results.

Definition process_results (self : Task) (generations : list (list string))
  (references : list string) : M (gmap string R) :=
  docs ← lift (get_dataset self);
  prompts_names ← lift (prompts_names_from 0 (length generations) docs);
  temp_dir ← gettempdir;
  list_files ←
    for_fold (zip3 prompts_names generations references) []
      (save_problem self temp_dir);
  print (LSavedProblems (length list_files) temp_dir);;
  let output_dir := os_path_join temp_dir "results/" in
  n ← cpu_count;
  let max_workers := max_workers_of n in
  time_time ← lift (getattr time "time");
  start_t ← call_float time_time;
  evaluate_problems output_dir max_workers list_files;;
  time_time ← lift (getattr time "time");
  end_t ← call_float time_time;
  print (LExecutionTook start_t end_t);;
  print (LResultsSavedIn output_dir);;
  compute_pass_k temp_dir.

End Run.

End MultiPLE.

(** * Properties *)

(** ** The split *)

Module SplitFacts.
Import Py MultiPLE.

Lemma match_here_None alts adv s w rest :
  Re.match_here alts adv s = None →
  w ∈ alts → s = w +:+ rest → adv = true ∧ w = "".
Proof.
  induction alts as [|a alts IH]; simpl; intros Hm Hin Hs.
  - by apply elem_of_nil in Hin.
  - apply elem_of_cons in Hin as [->|Hin].
    + rewrite Hs, Str.strip_prefix_app in Hm.
      destruct adv, a; simpl in Hm; try discriminate. done.
    + destruct (Str.strip_prefix a s); [|by apply IH].
      destruct (adv && Str.is_empty a); [by apply IH|discriminate].
Qed.

Lemma search_None alts adv s pre w post :
  Re.search alts adv s = None →
  w ∈ alts → s = pre +:+ w +:+ post → adv = true ∧ pre = "" ∧ w = "".
Proof.
  revert adv pre; induction s as [|c s IH]; intros adv pre Hs Hin Heq;
    simpl in Hs;
    destruct (Re.match_here alts adv _) as [[w' r]|] eqn:E; try discriminate.
  - destruct pre; [|discriminate]. rewrite Str.app_nil_l in Heq.
    destruct (match_here_None _ _ _ _ _ E Hin Heq). done.
  - destruct pre as [|b pre].
    + rewrite Str.app_nil_l in Heq.
      destruct (match_here_None _ _ _ _ _ E Hin Heq). done.
    + rewrite Str.app_cons in Heq. injection Heq as -> Heq.
      destruct (Re.search alts false s) as [[[p w''] q]|] eqn:E';
        [discriminate|].
      destruct (IH false pre E' Hin Heq) as [? _]. discriminate.
Qed.

(** The match found is the leftmost one. *)
Lemma search_leftmost alts s pre w post pre' w' post' :
  Re.search alts false s = Some (pre, w, post) →
  w' ∈ alts → s = pre' +:+ w' +:+ post' →
  (String.length pre ≤ String.length pre')%nat.
Proof.
  revert pre pre'; induction s as [|c s IH]; intros pre pre' Hs Hin Heq;
    simpl in Hs;
    destruct (Re.match_here alts false _) as [[w1 r]|] eqn:E.
  - injection Hs as <- <- <-. simpl. lia.
  - discriminate.
  - injection Hs as <- <- <-. simpl. lia.
  - destruct (Re.search alts false s) as [[[p w2] q]|] eqn:E';
      [|discriminate].
    injection Hs as <- <- <-. destruct pre' as [|b pre'].
    + rewrite Str.app_nil_l in Heq.
      destruct (match_here_None _ _ _ _ _ E Hin Heq). discriminate.
    + rewrite Str.app_cons in Heq. injection Heq as -> Heq.
      simpl. apply le_n_S. by eapply IH.
Qed.

Lemma split_from_None alts adv s :
  Re.search alts adv s = None → Re.split_from alts adv s = [s].
Proof.
  intros H. rewrite Re.split_from_equation_1.
  destruct (Re.inspect (Re.search alts adv s)) as [[[[pre w] post]|] e];
    [congruence|done].
Qed.

Lemma split_from_Some alts adv s pre w post :
  Re.search alts adv s = Some (pre, w, post) →
  Re.split_from alts adv s
  = pre :: w :: Re.split_from alts (Str.is_empty w) post.
Proof.
  intros H. rewrite Re.split_from_equation_1.
  destruct (Re.inspect (Re.search alts adv s)) as [[[[pre' w'] post']|] e];
    [|congruence].
  assert (Some (pre', w', post') = Some (pre, w, post)) as [= -> -> ->]
    by congruence.
  done.
Qed.

(** Induction along the matches of a split. *)
Lemma split_from_ind alts (P : bool → string → Prop) :
  (∀ adv s,
     (∀ pre w post, Re.search alts adv s = Some (pre, w, post) →
                    P (Str.is_empty w) post) →
     P adv s) →
  ∀ adv s, P adv s.
Proof.
  intros Hstep.
  assert (∀ n adv s, (Re.split_measure adv s < n)%nat → P adv s) as Hn.
  { induction n as [|n IH]; intros adv s Hlt; [lia|].
    apply Hstep. intros pre w post Hs. apply IH.
    apply Re.search_measure in Hs. lia. }
  intros adv s. apply (Hn (S (Re.split_measure adv s))). lia.
Qed.

(** The split never returns the empty list, and has an odd number of
    elements: text, delimiter, text, ..., text. *)
Lemma split_from_length alts adv s :
  ∃ n, length (Re.split_from alts adv s) = S (2 * n).
Proof.
  revert adv s. apply (split_from_ind alts). intros adv s IH.
  destruct (Re.search alts adv s) as [[[pre w] post]|] eqn:E.
  - rewrite (split_from_Some _ _ _ _ _ _ E).
    destruct (IH _ _ _ eq_refl) as [n Hn].
    exists (S n). simpl. rewrite Hn. lia.
  - rewrite (split_from_None _ _ _ E). by exists 0%nat.
Qed.

Lemma join_cons (x : string) (l : list string) :
  Str.join "" (x :: l) = x +:+ Str.join "" l.
Proof.
  unfold Str.join. destruct l as [|y l]; simpl.
  - by rewrite Str.app_nil_r.
  - done.
Qed.

Lemma drop_last_2_cons2 {A} (x y : A) (l : list A) :
  (2 ≤ length l)%nat → drop_last 2 (x :: y :: l) = x :: y :: drop_last 2 l.
Proof.
  intros H. unfold drop_last. simpl.
  destruct (length l) as [|[|n]] eqn:E; [lia..|]. simpl.
  by rewrite Nat.sub_0_r.
Qed.

End SplitFacts.

(** ** Truncation at a stop marker *)

Module Truncation.
Import Py MultiPLE Occ SplitFacts.

(** Searching decides [contains_marker]. *)
Lemma search_occurs alts s pre w post :
  Re.search alts false s = Some (pre, w, post) →
  occurs_at alts s (String.length pre).
Proof.
  intros H. apply Re.search_Some in H as (Hin & Heq & _).
  by exists pre, w, post.
Qed.

Lemma search_None_no_marker alts s :
  Re.search alts false s = None → ¬ contains_marker alts s.
Proof.
  intros H (n & pre & w & post & Hin & Heq & _).
  destruct (search_None _ _ _ _ _ _ H Hin Heq). discriminate.
Qed.

Lemma has_marker_spec alts s :
  has_marker alts s = true ↔ contains_marker alts s.
Proof.
  unfold has_marker.
  destruct (Re.search alts false s) as [[[pre w] post]|] eqn:E.
  - split; [|done]. intros _. eexists. by eapply search_occurs.
  - split; [discriminate|]. intros H. by apply search_None_no_marker in H.
Qed.

Lemma substring_0_app (r x : string) :
  String.substring 0 (String.length r) (r +:+ x) = r.
Proof.
  induction r as [|a r IH].
  - rewrite Str.app_nil_l. by destruct x.
  - rewrite Str.app_cons. simpl. by rewrite IH.
Qed.

Lemma contains_char_app_cons c (x y : string) :
  Str.contains_char c (x +:+ String c y) = true.
Proof.
  induction x as [|a x IH].
  - rewrite Str.app_nil_l. simpl. by rewrite Ascii.eqb_refl.
  - rewrite Str.app_cons. simpl. rewrite IH. by rewrite orb_true_r.
Qed.

(** No marker headed by [c] starts strictly inside another one. *)
Lemma headed_no_overlap c (w w' x y rest post' : string) :
  headed c w = true → headed c w' = true →
  w = x +:+ y → y +:+ rest = w' +:+ post' →
  x = "" ∨ y = "".
Proof.
  intros Hw Hw' -> Hy.
  destruct x as [|a x]; [by left|]. destruct y as [|b y]; [by right|].
  exfalso. destruct w' as [|b' t']; [discriminate|].
  rewrite !Str.app_cons in Hy. injection Hy as -> _.
  rewrite Str.app_cons in Hw. simpl in Hw, Hw'.
  apply andb_true_iff in Hw as [_ Hw], Hw' as [Hb _].
  apply Ascii.eqb_eq in Hb as ->.
  by rewrite contains_char_app_cons in Hw.
Qed.

(** With no marker in [s] the split is [[s]], and nothing is left of it. *)
Lemma remove_no_match alts s :
  Re.search alts false s = None →
  Str.join "" (drop_last 2 (Re.split_from alts false s)) = "".
Proof. intros H. by rewrite (split_from_None _ _ _ H). Qed.

(** With a marker in [s], what is left is the text before the last match of
    the scan, after which no marker occurs. *)
Lemma remove_last_match alts s :
  Forall (λ w, w ≠ "") alts →
  Re.search alts false s ≠ None →
  ∃ r w rest,
    s = r +:+ w +:+ rest ∧ w ∈ alts ∧ Re.search alts false rest = None
    ∧ Str.join "" (drop_last 2 (Re.split_from alts false s)) = r.
Proof.
  intros Hne0. pose proof (proj1 (Forall_forall _ _) Hne0) as Hne.
  enough (∀ adv s, adv = false → Re.search alts adv s ≠ None →
    ∃ r w rest,
      s = r +:+ w +:+ rest ∧ w ∈ alts ∧ Re.search alts false rest = None
      ∧ Str.join "" (drop_last 2 (Re.split_from alts adv s)) = r) as H
    by (by apply H).
  clear s. intros adv s. pattern adv, s. revert adv s.
  apply (split_from_ind alts). cbv beta. intros adv s IH -> Hs.
  destruct (Re.search alts false s) as [[[pre w] post]|] eqn:E; [|done].
  rewrite (split_from_Some _ _ _ _ _ _ E).
  pose proof (Re.search_Some _ _ _ _ _ _ E) as (Hin & Heq & _).
  assert (Str.is_empty w = false) as Hw.
  { specialize (Hne w Hin). by destruct w. }
  specialize (IH _ _ _ eq_refl). rewrite Hw in *.
  destruct (Re.search alts false post) as [[[pre' w'] post']|] eqn:E'.
  - destruct IH as (r & w1 & rest & Hpost & Hin1 & Hrest & Hjoin); [done..|].
    exists (pre +:+ w +:+ r), w1, rest. repeat split; [|done..|].
    + by rewrite Heq, Hpost, !Str.app_assoc.
    + rewrite drop_last_2_cons2.
      * by rewrite !join_cons, Hjoin.
      * rewrite (split_from_Some _ _ _ _ _ _ E'). simpl. lia.
  - exists pre, w, post. repeat split; [done..|].
    rewrite (split_from_None _ _ _ E'). reflexivity.
Qed.

(** For markers headed by one character, that match is the last occurrence
    of a marker in [s]. *)
Lemma last_match_is_last_occurrence c alts (s r w rest : string) :
  Forall (λ w, headed c w = true) alts →
  s = r +:+ w +:+ rest → w ∈ alts → Re.search alts false rest = None →
  last_occurrence alts s (String.length r).
Proof.
  intros Hhd0 Heq Hin Hrest.
  pose proof (proj1 (Forall_forall _ _) Hhd0) as Hhd. split.
  { by exists r, w, rest. }
  intros m (pre' & w' & post' & Hin' & Heq' & <-).
  destruct (Nat.le_gt_cases (String.length pre') (String.length r))
    as [|Hlt]; [done|exfalso].
  rewrite Heq in Heq'.
  destruct (Str.app_eq_app _ _ _ _ Heq') as (x & -> & Hx); [lia|].
  rewrite Str.length_app in Hlt.
  destruct (Nat.le_gt_cases (String.length x) (String.length w)) as [Hle|Hgt].
  - symmetry in Hx.
    destruct (Str.app_eq_app _ _ _ _ Hx Hle) as (y & -> & Hy).
    destruct (headed_no_overlap c (x +:+ y) w' x y rest post')
      as [->| ->]; auto.
    + simpl in Hlt. lia.
    + rewrite Str.app_nil_l in Hy.
      destruct (search_None _ _ _ "" w' post' Hrest Hin'); [|discriminate].
      by rewrite Str.app_nil_l.
  - destruct (Str.app_eq_app _ _ _ _ Hx) as (y & -> & Hy); [lia|].
    by destruct (search_None _ _ _ _ _ _ Hrest Hin' Hy).
Qed.

Lemma headed_nonempty c alts :
  Forall (λ w, headed c w = true) alts → Forall (λ w, w ≠ "") alts.
Proof.
  intros H. eapply Forall_impl; [exact H|]. by intros [|a w] Hw.
Qed.

(** [remove_last_block] for stop words headed by one character: the prefix
    before the last occurrence of a marker. *)
Lemma remove_last_block_headed c stop_words (s : string) :
  stop_words ≠ [] →
  Forall (λ w, headed c w = true) stop_words →
  contains_marker stop_words s →
  ∃ n, last_occurrence stop_words s n
       ∧ remove_last_block s stop_words = prefix s n.
Proof.
  intros Hnil Hhd Hocc. unfold remove_last_block, Re.split.
  replace (Re.alternatives stop_words) with stop_words
    by (by destruct stop_words).
  destruct (remove_last_match stop_words s (headed_nonempty _ _ Hhd))
    as (r & w & rest & Heq & Hin & Hrest & Hjoin).
  { intros Hnone. by apply search_None_no_marker in Hnone. }
  exists (String.length r). split.
  - by eapply last_match_is_last_occurrence.
  - rewrite Hjoin, Heq. unfold prefix. by rewrite substring_0_app.
Qed.

End Truncation.

(** ** The postprocessor of a constructed task *)

Module Postprocess.
Import Py MultiPLE Occ SplitFacts Truncation.

(** A data set provider with no partition, for closed examples. *)
Definition no_dataset : string → string → gmap string (list value) :=
  λ _ _, ∅.

(** The task [GeneralMultiPLE("py")] over [no_dataset]. *)
Definition py_task : Task :=
  mkTask "py" "humaneval-py"
    [Str.nl +:+ "def"; Str.nl +:+ "#"; Str.nl +:+ "if"; Str.nl +:+ "class"]
    true ∅.

(** [a\ndef b\ndef c]: two markers. *)
Definition two_blocks : string :=
  "a" +:+ Str.nl +:+ "def b" +:+ Str.nl +:+ "def c".

(** [abc\ndef x]: one marker. *)
Definition one_block : string := "abc" +:+ Str.nl +:+ "def x".

Section Configured.

Variable load_dataset : string → string → gmap string (list value).

Lemma init_stop_words language self :
  GeneralMultiPLE_init load_dataset language = Ok self →
  stop_words self
  = [Str.nl +:+ "def"; Str.nl +:+ "#"; Str.nl +:+ "if"; Str.nl +:+ "class"].
Proof. intros [= <-]. reflexivity. Qed.

(** The configured markers are literals for the [re] module, none is empty,
    and each starts with the only newline it has. *)
Lemma init_stop_words_shape language self :
  GeneralMultiPLE_init load_dataset language = Ok self →
  forallb Re.literal (stop_words self) = true
  ∧ Re.alternatives (stop_words self) = stop_words self
  ∧ Forall (λ w, w ≠ "") (stop_words self)
  ∧ Forall (λ w, headed (ascii_of_nat 10) w = true) (stop_words self).
Proof.
  intros H. rewrite (init_stop_words _ _ H).
  split; [reflexivity|]. split; [reflexivity|].
  split; repeat constructor; discriminate.
Qed.

(** C3.  For a task built by the constructor and a generation in which no
    configured stop marker occurs, [postprocess_generation] returns the empty
    string: the split has one element and the slice [[:-2]] keeps none. *)
Theorem postprocess_no_marker_empty language self (s : string) (idx : Z) :
  GeneralMultiPLE_init load_dataset language = Ok self →
  ¬ contains_marker (stop_words self) s →
  postprocess_generation self s idx = ""
  ∧ remove_last_block s (stop_words self) = "".
Proof.
  intros Hinit Hno.
  destruct (init_stop_words_shape _ _ Hinit) as (_ & Halt & _ & _).
  assert (remove_last_block s (stop_words self) = "") as Hr; [|by split].
  unfold remove_last_block, Re.split. rewrite Halt.
  apply remove_no_match.
  destruct (Re.search (stop_words self) false s) as [[[pre w] post]|] eqn:E;
    [|done].
  exfalso. apply Hno. eexists. by eapply search_occurs.
Qed.

(** C2, as the code has it.  For a task built by the constructor and a
    string in which a configured stop marker occurs, [remove_last_block]
    returns the prefix of the string up to, and excluding, the last
    occurrence of a stop marker: the block after the last marker is
    removed, earlier markers are kept. *)
Theorem remove_last_block_last_marker language self (s : string) :
  GeneralMultiPLE_init load_dataset language = Ok self →
  contains_marker (stop_words self) s →
  ∃ n, last_occurrence (stop_words self) s n
       ∧ remove_last_block s (stop_words self) = prefix s n.
Proof.
  intros Hinit Hocc.
  destruct (init_stop_words_shape _ _ Hinit) as (_ & _ & _ & Hhd).
  apply (remove_last_block_headed (ascii_of_nat 10)); [|done..].
  by rewrite (init_stop_words _ _ Hinit).
Qed.

(** With exactly one occurrence of a stop marker in the string, at offset
    [n], [remove_last_block] returns the text before that marker. *)
Theorem remove_last_block_single_marker language self (s : string) (n : nat) :
  GeneralMultiPLE_init load_dataset language = Ok self →
  (∀ m, occurs_at (stop_words self) s m ↔ m = n) →
  remove_last_block s (stop_words self) = prefix s n
  ∧ first_occurrence (stop_words self) s n.
Proof.
  intros Hinit Hone.
  destruct (init_stop_words_shape _ _ Hinit) as (_ & _ & _ & Hhd).
  destruct (remove_last_block_headed (ascii_of_nat 10) (stop_words self) s)
    as (k & [Hk _] & Hr); [by rewrite (init_stop_words _ _ Hinit)|done|..].
  { exists n. by apply Hone. }
  apply Hone in Hk as ->. split; [done|]. split; [by apply Hone|].
  intros m Hm. apply Hone in Hm as ->. done.
Qed.

(** C4, as the code has it.  When the output of [postprocess_generation]
    contains no stop marker, applying [postprocess_generation] to it gives
    the empty string; the second application returns the first output
    only when that output is empty. *)
Theorem postprocess_twice_empty language self (s : string) (idx : Z) :
  GeneralMultiPLE_init load_dataset language = Ok self →
  ¬ contains_marker (stop_words self) (postprocess_generation self s idx) →
  postprocess_generation self (postprocess_generation self s idx) idx = ""
  ∧ (postprocess_generation self (postprocess_generation self s idx) idx
     = postprocess_generation self s idx
     ↔ postprocess_generation self s idx = "").
Proof.
  intros Hinit Hno.
  destruct (init_stop_words_shape _ _ Hinit) as (_ & Halt & _ & _).
  assert (postprocess_generation self (postprocess_generation self s idx) idx
          = "") as Hempty.
  { unfold postprocess_generation at 1. unfold remove_last_block, Re.split.
    rewrite Halt. apply remove_no_match.
    destruct (Re.search (stop_words self) false
                (postprocess_generation self s idx))
      as [[[pre w] post]|] eqn:E; [|done].
    exfalso. apply Hno. eexists. by eapply search_occurs. }
  split; [done|]. rewrite Hempty. split; congruence.
Qed.

(** C9.  [postprocess_generation] does not look at the index: two calls on
    one generation agree whatever the indices. *)
Theorem postprocess_ignores_index (self : Task) (g : string) (i j : Z) :
  postprocess_generation self g i = postprocess_generation self g j
  ∧ postprocess_generation self g i = remove_last_block g (stop_words self).
Proof. split; unfold postprocess_generation; reflexivity. Qed.

(** C10.  There are nineteen language codes, all different, and for each of
    them the registry holds a constructor that returns a task with the four
    fixed stop words, the execution flag set and the partition
    [humaneval-{language}]. *)
Theorem init_configuration (language : string) :
  language ∈ LANGUAGES →
  length LANGUAGES = 19%nat ∧ NoDup LANGUAGES
  ∧ create_all_tasks load_dataset !! ("multiple-" +:+ language)
    = Some (create_task load_dataset language)
  ∧ ∃ self,
      GeneralMultiPLE_init load_dataset language = Ok self
      ∧ create_task load_dataset language () = Ok self
      ∧ MultiPLE.language self = language
      ∧ stop_words self
        = [Str.nl +:+ "def"; Str.nl +:+ "#"; Str.nl +:+ "if";
           Str.nl +:+ "class"]
      ∧ requires_execution self = true
      ∧ DATASET_NAME self = "humaneval-" +:+ language
      ∧ dataset self = load_dataset DATASET_PATH ("humaneval-" +:+ language).
Proof.
  intros Hin. split; [reflexivity|].
  split; [by apply (bool_decide_unpack (NoDup LANGUAGES))|]. split.
  - unfold create_all_tasks. apply elem_of_list_to_map_1.
    + rewrite <- list_fmap_compose.
      match goal with |- ?G => by apply (bool_decide_unpack G) end.
    + apply list_elem_of_fmap. by exists language.
  - eexists. split; [reflexivity|]. by repeat split.
Qed.

End Configured.

Lemma py_task_init : GeneralMultiPLE_init no_dataset "py" = Ok py_task.
Proof. reflexivity. Qed.

Lemma two_blocks_first_marker :
  first_occurrence (stop_words py_task) two_blocks 1.
Proof.
  split.
  - exists "a", (Str.nl +:+ "def"), (" b" +:+ Str.nl +:+ "def c").
    split; [by left|]. by split.
  - intros m (pre & w & post & Hin & Heq & <-).
    apply (search_leftmost (stop_words py_task) two_blocks "a"
             (Str.nl +:+ "def") (" b" +:+ Str.nl +:+ "def c") pre w post);
      [reflexivity|done..].
Qed.

(** C2, as the claim has it, fails on [a\ndef b\ndef c]: the first marker
    is at offset 1, so the claim gives [a], and [remove_last_block] returns
    [a\ndef b]. *)
Lemma remove_last_block_not_first_marker :
  GeneralMultiPLE_init no_dataset "py" = Ok py_task
  ∧ contains_marker (stop_words py_task) two_blocks
  ∧ remove_last_block two_blocks (stop_words py_task)
    = "a" +:+ Str.nl +:+ "def b"
  ∧ ¬ (∃ n, first_occurrence (stop_words py_task) two_blocks n
            ∧ remove_last_block two_blocks (stop_words py_task)
              = prefix two_blocks n).
Proof.
  split; [reflexivity|]. split; [by apply has_marker_spec|].
  split; [reflexivity|].
  intros (n & [_ Hmin] & Heq).
  pose proof (Hmin 1%nat (proj1 two_blocks_first_marker)) as Hle.
  destruct n as [|[|n]]; [discriminate Heq..|lia].
Qed.

Lemma remove_last_block_last_marker_witness :
  GeneralMultiPLE_init no_dataset "py" = Ok py_task
  ∧ contains_marker (stop_words py_task) two_blocks
  ∧ ∃ n, last_occurrence (stop_words py_task) two_blocks n
         ∧ remove_last_block two_blocks (stop_words py_task)
           = prefix two_blocks n.
Proof.
  split; [reflexivity|]. split; [by apply has_marker_spec|].
  apply (remove_last_block_last_marker no_dataset "py" py_task two_blocks);
    [reflexivity|by apply has_marker_spec].
Defined.

Lemma postprocess_no_marker_empty_witness :
  GeneralMultiPLE_init no_dataset "py" = Ok py_task
  ∧ ¬ contains_marker (stop_words py_task) "abc"
  ∧ postprocess_generation py_task "abc" 0 = ""
  ∧ remove_last_block "abc" (stop_words py_task) = "".
Proof.
  split; [reflexivity|]. split; [by apply search_None_no_marker|].
  apply (postprocess_no_marker_empty no_dataset "py" py_task "abc" 0);
    [reflexivity|by apply search_None_no_marker].
Defined.

(** C4, as the claim has it, fails on [abc\ndef x]: the first application
    gives [abc], which holds no marker, and the second gives the empty
    string. *)
Lemma postprocess_not_idempotent :
  GeneralMultiPLE_init no_dataset "py" = Ok py_task
  ∧ postprocess_generation py_task one_block 0 = "abc"
  ∧ ¬ contains_marker (stop_words py_task)
        (postprocess_generation py_task one_block 0)
  ∧ postprocess_generation py_task
      (postprocess_generation py_task one_block 0) 0
    ≠ postprocess_generation py_task one_block 0.
Proof.
  split; [reflexivity|]. split; [reflexivity|].
  split; [by apply search_None_no_marker|]. discriminate.
Qed.

Lemma postprocess_twice_empty_witness :
  GeneralMultiPLE_init no_dataset "py" = Ok py_task
  ∧ ¬ contains_marker (stop_words py_task)
        (postprocess_generation py_task one_block 0)
  ∧ postprocess_generation py_task
      (postprocess_generation py_task one_block 0) 0 = ""
  ∧ (postprocess_generation py_task
       (postprocess_generation py_task one_block 0) 0
     = postprocess_generation py_task one_block 0
     ↔ postprocess_generation py_task one_block 0 = "").
Proof.
  split; [reflexivity|]. split; [by apply search_None_no_marker|].
  apply (postprocess_twice_empty no_dataset "py" py_task one_block 0);
    [reflexivity|by apply search_None_no_marker].
Defined.

Lemma one_block_single_marker m :
  occurs_at (stop_words py_task) one_block m ↔ m = 3%nat.
Proof.
  split.
  - intros Hm. apply Nat.le_antisymm.
    + assert (last_occurrence (stop_words py_task) one_block 3) as [_ Hlast];
        [|by apply Hlast].
      apply (last_match_is_last_occurrence (ascii_of_nat 10)
               (stop_words py_task) one_block "abc" (Str.nl +:+ "def") " x");
        [repeat constructor|reflexivity|by left|reflexivity].
    + destruct Hm as (pre & w & post & Hin & Heq & <-).
      apply (search_leftmost (stop_words py_task) one_block "abc"
               (Str.nl +:+ "def") " x" pre w post); [reflexivity|done..].
  - intros ->. exists "abc", (Str.nl +:+ "def"), " x".
    split; [by left|]. by split.
Qed.

Lemma remove_last_block_single_marker_witness :
  GeneralMultiPLE_init no_dataset "py" = Ok py_task
  ∧ (∀ m, occurs_at (stop_words py_task) one_block m ↔ m = 3%nat)
  ∧ remove_last_block one_block (stop_words py_task) = prefix one_block 3
  ∧ first_occurrence (stop_words py_task) one_block 3.
Proof.
  split; [reflexivity|]. split; [exact one_block_single_marker|].
  exact (remove_last_block_single_marker no_dataset "py" py_task one_block 3
           eq_refl one_block_single_marker).
Defined.

Lemma init_configuration_witness :
  "rs" ∈ LANGUAGES
  ∧ length LANGUAGES = 19%nat ∧ NoDup LANGUAGES
  ∧ create_all_tasks no_dataset !! ("multiple-" +:+ "rs")
    = Some (create_task no_dataset "rs")
  ∧ ∃ self,
      GeneralMultiPLE_init no_dataset "rs" = Ok self
      ∧ create_task no_dataset "rs" () = Ok self
      ∧ language self = "rs"
      ∧ stop_words self
        = [Str.nl +:+ "def"; Str.nl +:+ "#"; Str.nl +:+ "if";
           Str.nl +:+ "class"]
      ∧ requires_execution self = true
      ∧ DATASET_NAME self = "humaneval-" +:+ "rs"
      ∧ dataset self = no_dataset DATASET_PATH ("humaneval-" +:+ "rs").
Proof.
  assert ("rs" ∈ LANGUAGES) as Hin
    by (by apply (bool_decide_unpack ("rs" ∈ LANGUAGES))).
  split; [exact Hin|]. exact (init_configuration no_dataset "rs" Hin).
Defined.

End Postprocess.

(** ** Paths and sequences *)

Module Paths.
Import Py MultiPLE.

Lemma split_char_nonnil sep s : Str.split_char sep s ≠ [].
Proof.
  destruct s as [|a s]; simpl; [done|].
  destruct (Ascii.eqb a sep); [done|].
  by destruct (Str.split_char sep s).
Qed.

(** A split with one piece found no separator: the piece is the string. *)
Lemma split_char_single sep s piece :
  Str.split_char sep s = [piece] → piece = s.
Proof.
  revert piece; induction s as [|a s IH]; intros piece; simpl.
  - by intros [= <-].
  - destruct (Ascii.eqb a sep).
    + intros [= _ H]. by apply split_char_nonnil in H.
    + destruct (Str.split_char sep s) as [|p ps] eqn:E.
      * by apply split_char_nonnil in E.
      * intros [= <- ->]. by rewrite (IH p).
Qed.

(** [l[-k]] exists when [l] has at least [k] elements. *)
Lemma seq_getitem_from_end {A} (l : list A) (k : nat) :
  (0 < k ≤ length l)%nat →
  ∃ x, seq_getitem l (- Z.of_nat k) = Ok x ∧ l !! (length l - k)%nat = Some x.
Proof.
  intros Hk. unfold seq_getitem, norm_index.
  destruct (Z.leb_spec 0 (- Z.of_nat k)) as [|_]; [lia|].
  destruct (Z.leb_spec (- Z.of_nat (length l)) (- Z.of_nat k)) as [_|];
    [|lia].
  simpl.
  replace (Z.to_nat (Z.of_nat (length l) + - Z.of_nat k))
    with (length l - k)%nat by lia.
  destruct (lookup_lt_is_Some_2 l (length l - k)%nat) as [x Hx]; [lia|].
  exists x. by rewrite Hx.
Qed.

(** The label printed with the scores is defined for every directory name
    but the empty one. *)
Lemma temp_dir_name temp_dir :
  temp_dir ≠ "" →
  ∃ last name,
    seq_getitem (Str.split_char "/" temp_dir) (-1) = Ok last
    ∧ (if bool_decide (last ≠ "")
       then seq_getitem (Str.split_char "/" temp_dir) (-1)
       else seq_getitem (Str.split_char "/" temp_dir) (-2)) = Ok name.
Proof.
  intros Hne. pose proof (split_char_nonnil "/" temp_dir) as Hnil.
  destruct (Str.split_char "/" temp_dir) as [|p [|q ps]] eqn:E; [done|..].
  - apply split_char_single in E as ->.
    exists temp_dir, temp_dir. by rewrite bool_decide_true.
  - destruct (seq_getitem_from_end (p :: q :: ps) 1) as (last & Hl & _);
      [simpl; lia|].
    destruct (seq_getitem_from_end (p :: q :: ps) 2) as (prev & Hp & _);
      [simpl; lia|].
    change (- Z.of_nat 1)%Z with (-1)%Z in Hl.
    change (- Z.of_nat 2)%Z with (-2)%Z in Hp.
    exists last. rewrite Hl, Hp. case_bool_decide; eauto.
Qed.

(** [os.path.join(dir, name)] extends [os.path.join(dir, "")] when [name]
    is relative. *)
Lemma os_path_join_relative dir name :
  Str.strip_prefix "/" name = None →
  os_path_join dir name = os_path_join dir "" +:+ name.
Proof.
  intros H. unfold os_path_join. rewrite H. simpl.
  destruct (Str.is_empty dir || Str.endswith dir "/").
  - by rewrite Str.app_nil_r.
  - by rewrite !Str.app_assoc.
Qed.

(** The pattern is matched in the directory itself: no path below the
    [results/] subdirectory matches. *)
Lemma results_subdir_unmatched dir rest :
  matches_results dir (os_path_join dir "results/" +:+ rest) = false.
Proof.
  unfold matches_results.
  rewrite (os_path_join_relative dir "results/") by reflexivity.
  rewrite Str.app_assoc, Str.strip_prefix_app.
  apply andb_false_intro1, andb_false_intro2. reflexivity.
Qed.

End Paths.

(** ** [process_results] *)

Module Results.
Import Py MultiPLE.

Section Run.

Context {R : Type}.
Variable radd : R → R → R.
Variable rdiv : R → nat → R.
Variable nan : R.
Variable evaluate_problem :
  string → string → Z → gmap string value → result (gmap string value).
Variable for_file : gmap string value → string → list R.
Variable py_repr : value → string.

#[local] Abbreviation process_results :=
  (process_results radd rdiv nan evaluate_problem for_file py_repr).
#[local] Abbreviation compute_pass_k := (compute_pass_k radd rdiv nan for_file).
#[local] Abbreviation evaluate_problems :=
  (@evaluate_problems R evaluate_problem).
#[local] Abbreviation save_problem := (@save_problem R py_repr).

Definition is_tuple (v : value) : Prop := ∃ l, v = VTuple l.

(** The comprehension builds tuples, one per document below the bound. *)
Lemma prompts_names_tuples i n docs pn :
  prompts_names_from i n docs = Ok pn →
  Forall is_tuple pn ∧ length pn = Nat.min (n - i) (length docs).
Proof.
  revert i pn; induction docs as [|doc docs IH]; intros i pn; simpl.
  - intros [= <-]. split; [constructor|]. simpl. lia.
  - destruct (Nat.ltb_spec i n) as [Hlt|Hge].
    + destruct (getitem doc (KStr "prompt")) as [p|]; [|discriminate].
      destruct (getitem doc (KStr "name")) as [nm|]; [|discriminate].
      simpl.
      destruct (prompts_names_from (S i) n docs) as [rest|] eqn:E;
        [|discriminate].
      simpl. intros [= <-]. destruct (IH _ _ E) as [Ht Hl]. split.
      * constructor; [by eexists|done].
      * simpl. rewrite Hl. lia.
    + intros H. destruct (IH _ _ H) as [Ht Hl]. split; [done|].
      rewrite Hl. lia.
Qed.

(** Past the bound nothing is selected. *)
Lemma prompts_names_past i n docs :
  (n ≤ i)%nat → prompts_names_from i n docs = Ok [].
Proof.
  revert i; induction docs as [|doc docs IH]; intros i Hi; simpl; [done|].
  destruct (Nat.ltb_spec i n); [lia|]. apply IH. lia.
Qed.





(** The loop body subscripts its tuple with a string: it raises before it
    writes or prints anything. *)
Lemma save_problem_tuple_raises self temp_dir list_files l generation
    reference w :
  save_problem self temp_dir list_files (VTuple l, generation, reference) w
  = (Raise TypeError, w).
Proof. reflexivity. Qed.

Lemma first_loop_raises self temp_dir pn generations references acc w :
  Forall is_tuple pn →
  zip3 pn generations references ≠ [] →
  for_fold (zip3 pn generations references) acc (save_problem self temp_dir) w
  = (Raise TypeError, w).
Proof.
  intros Ht Hne.
  destruct pn as [|p pn], generations as [|g gs], references as [|r rs];
    try done.
  apply Forall_cons in Ht as [[l ->] _]. reflexivity.
Qed.

(** C1.  [process_results] never returns a mapping: on every input it
    raises, without having written a file or called the evaluator.  When the
    data set is read and the zipped sequence of problems is not empty the
    exception is the [TypeError] of the first loop iteration; when it is
    empty it is the [AttributeError] of [time.time()]. *)
Theorem process_results_always_raises (self : Task)
    (generations : list (list string)) (references : list string)
    (w : world) :
  ∃ e w',
    process_results self generations references w = (Raise e, w')
    ∧ fs w' = fs w ∧ evaluated w' = evaluated w
    ∧ ∀ docs pn,
        get_dataset self = Ok docs →
        prompts_names_from 0 (length generations) docs = Ok pn →
        (zip3 pn generations references ≠ [] →
         e = TypeError ∧ stdout w' = stdout w)
        ∧ (zip3 pn generations references = [] → e = AttributeError).
Proof.
  unfold MultiPLE.process_results, mbind, M_bind, bind, lift.
  destruct (get_dataset self) as [docs|e] eqn:Hd.
  2: { exists e, w. repeat split; try done; intros; discriminate. }
  destruct (prompts_names_from 0 (length generations) docs) as [pn|e] eqn:Hp.
  2: { exists e, w. split; [done|]. split; [done|]. split; [done|].
       intros docs' pn' [= <-] Hp'. congruence. }
  simpl.
  destruct (prompts_names_tuples _ _ _ _ Hp) as [Ht _].
  destruct (zip3 pn generations references) as [|item items] eqn:Hz.
  - eexists AttributeError, _. simpl. split; [reflexivity|].
    split; [done|]. split; [done|].
    intros docs' pn' [= <-] Hp'. rewrite Hp in Hp'. injection Hp' as <-.
    rewrite Hz. split; [done|done].
  - exists TypeError, w. rewrite <- Hz.
    rewrite first_loop_raises; [|done|by rewrite Hz].
    split; [done|]. split; [done|]. split; [done|].
    intros docs' pn' [= <-] Hp'. rewrite Hp in Hp'. injection Hp' as <-.
    split; [done|by rewrite Hz].
Qed.

(** One round of the evaluation loop. *)
Lemma evaluate_problems_cons output_dir max_workers file files (w : world) :
  evaluate_problems output_dir max_workers (file :: files) w
  = let calls := evaluated w ++ [mkCall output_dir file max_workers] in
    let out := stdout w ++ [LEvaluating file] in
    match evaluate_problem output_dir file max_workers (fs w) with
    | Ok fs' =>
        evaluate_problems output_dir max_workers files
          (mkWorld fs' out calls (clock w) (tempdir w) (cpus w))
    | Raise e =>
        (Raise e, mkWorld (fs w) out calls (clock w) (tempdir w) (cpus w))
    end.
Proof.
  unfold MultiPLE.evaluate_problems. simpl.
  unfold mbind, M_bind, bind, print, call_evaluate_problem. simpl.
  by destruct (evaluate_problem output_dir file max_workers (fs w)).
Qed.

(** The evaluation loop records one call per file it reaches, each with
    the output directory and the worker budget it was given. *)
Lemma evaluate_problems_calls output_dir max_workers list_files (w : world) :
  ∃ calls,
    evaluated (evaluate_problems output_dir max_workers list_files w).2
    = evaluated w ++ calls
    ∧ Forall (λ c, call_max_workers c = max_workers
                   ∧ call_output_dir c = output_dir
                   ∧ call_file c ∈ list_files) calls.
Proof.
  revert w; induction list_files as [|file files IH]; intros w.
  - exists []. simpl. by rewrite app_nil_r.
  - rewrite evaluate_problems_cons. cbv zeta.
    destruct (evaluate_problem output_dir file max_workers (fs w))
      as [fs'|e].
    + match goal with
      | |- context [evaluate_problems _ _ files ?w1] =>
          destruct (IH w1) as (calls & Hcalls & Hall)
      end.
      exists (mkCall output_dir file max_workers :: calls).
      rewrite Hcalls. simpl. split; [by rewrite <- app_assoc|].
      constructor; [by repeat split; simpl; try left|].
      eapply Forall_impl; [exact Hall|].
      intros c (? & ? & ?). repeat split; try done. by right.
    + exists [mkCall output_dir file max_workers]. split; [done|].
      constructor; [|constructor]. by repeat split; simpl; try left.
Qed.

(** C8.  The worker budget is [max(cpu_count() - 1, 1)]: one less than the
    processor count above one, one otherwise, so never below one; and it is
    the budget of every call the evaluation loop makes. *)
Theorem max_workers_budget (n : Z) (output_dir : string)
    (list_files : list string) (w : world) :
  max_workers_of n = Z.max (n - 1) 1
  ∧ (1 ≤ max_workers_of n)%Z
  ∧ ((1 < n)%Z → max_workers_of n = (n - 1)%Z)
  ∧ ((n ≤ 1)%Z → max_workers_of n = 1%Z)
  ∧ ∃ calls,
      evaluated
        (evaluate_problems output_dir (max_workers_of (cpus w)) list_files w).2
      = evaluated w ++ calls
      ∧ Forall (λ c, call_max_workers c = Z.max (cpus w - 1) 1
                     ∧ (1 ≤ call_max_workers c)%Z) calls.
Proof.
  assert (∀ m, max_workers_of m = Z.max (m - 1) 1) as Hmax.
  { intros m. unfold max_workers_of.
    destruct (Z.gtb_spec m 1); lia. }
  split; [apply Hmax|]. split; [rewrite Hmax; lia|].
  split; [intros; rewrite Hmax; lia|]. split; [intros; rewrite Hmax; lia|].
  destruct (evaluate_problems_calls output_dir (max_workers_of (cpus w))
              list_files w) as (calls & Hcalls & Hall).
  exists calls. split; [done|].
  eapply Forall_impl; [exact Hall|].
  intros c (Hc & _ & _). rewrite Hc, Hmax. lia.
Qed.

(** Following the spec: the [k]-th component of a score vector, and the
    unweighted arithmetic mean of a list of numbers, their sum divided by
    their count. *)
Definition component (k : nat) (v : list R) : R := default nan (v !! k).

Definition arithmetic_mean (xs : list R) : R :=
  match xs with
  | [] => nan
  | x :: xs' => rdiv (foldl radd x xs') (length xs)
  end.

(** Adding up rows of three numbers adds up each column. *)
Lemma foldl_rows (a b c : R) (rows : list (list R)) :
  Forall (λ v, length v = 3%nat) rows →
  foldl (zip_with radd) [a; b; c] rows
  = [foldl radd a (component 0 <$> rows);
     foldl radd b (component 1 <$> rows);
     foldl radd c (component 2 <$> rows)].
Proof.
  intros Hrows. revert a b c.
  induction Hrows as [|v rows Hv _ IH]; intros a b c; [done|].
  destruct v as [|x [|y [|z [|]]]]; try discriminate.
  simpl. by rewrite IH.
Qed.

Lemma np_array_rows (r : list R) (rows : list (list R)) :
  Forall (λ v, length v = 3%nat) (r :: rows) →
  np_array (r :: rows) = Ok (Nd2 (r :: rows)).
Proof.
  intros Hall. apply Forall_cons in Hall as [Hr Hrows]. simpl.
  replace (forallb (λ r', (length r' =? length r)%nat) rows) with true;
    [done|].
  symmetry. apply forallb_forall. intros v Hv.
  apply list_elem_of_In in Hv.
  pose proof (proj1 (Forall_forall _ _) Hrows v Hv) as Hlen. simpl in Hlen.
  rewrite Hlen, Hr. done.
Qed.

(** The glob lists the files of the directory itself whose name matches. *)
Lemma glob_results_spec {V} dir (files : gmap string V) path :
  path ∈ glob_results dir files
  ↔ is_Some (files !! path) ∧ matches_results dir path = true.
Proof.
  unfold glob_results. rewrite list_elem_of_filter, list_elem_of_fmap.
  split.
  - intros (Hm & [p v] & -> & Hin). apply elem_of_map_to_list in Hin.
    split; [by eexists|done].
  - intros ([v Hv] & Hm). split; [done|]. exists (path, v).
    split; [done|]. by apply elem_of_map_to_list.
Qed.

(** The scores that the last part of [process_results] returns for the
    vectors [vectors]. *)
Definition mean_scores (vectors : list (list R)) : gmap string R :=
  <["pass@100" := arithmetic_mean (component 2 <$> vectors)]>
  (<["pass@10" := arithmetic_mean (component 1 <$> vectors)]>
   (<["pass@1" := arithmetic_mean (component 0 <$> vectors)]> ∅)).

(** C6.  The last part of [process_results] lists the files of the
    temporary directory itself that match [*.results.json] (no file below
    its [results/] subdirectory is among them), applies [for_file] to each,
    and returns under the keys [pass@1], [pass@10] and [pass@100], and no
    other, the unweighted means of the first, second and third components
    of the vectors.  This is for a directory name that is not empty, at
    least one matching file and vectors of three numbers. *)
Theorem compute_pass_k_means (temp_dir : string) (w : world) :
  temp_dir ≠ "" →
  glob_results temp_dir (fs w) ≠ [] →
  Forall (λ path, length (for_file (fs w) path) = 3%nat)
    (glob_results temp_dir (fs w)) →
  (∃ w',
     compute_pass_k temp_dir w
     = (Ok (mean_scores (for_file (fs w) <$> glob_results temp_dir (fs w))),
        w')
     ∧ fs w' = fs w ∧ evaluated w' = evaluated w)
  ∧ dom (mean_scores (for_file (fs w) <$> glob_results temp_dir (fs w)))
    = ({["pass@1"; "pass@10"; "pass@100"]} : gset string)
  ∧ (∀ path,
       path ∈ glob_results temp_dir (fs w)
       ↔ is_Some (fs w !! path) ∧ matches_results temp_dir path = true)
  ∧ (∀ rest,
       os_path_join temp_dir "results/" +:+ rest
       ∉ glob_results temp_dir (fs w)).
Proof.
  intros Hdir Hfiles Hlen. split; [|split; [|split]].
  - destruct (Paths.temp_dir_name temp_dir Hdir) as (last & name & Hl & Hn).
    unfold MultiPLE.compute_pass_k, mbind, M_bind, bind, lift, read_fs.
    destruct (glob_results temp_dir (fs w)) as [|path paths] eqn:Hg; [done|].
    rewrite fmap_cons, np_array_rows
      by (rewrite <- fmap_cons; by apply Forall_fmap).
    apply Forall_cons in Hlen as [Hp Hps].
    destruct (for_file (fs w) path) as [|a [|b [|c [|]]]] eqn:Hv;
      try discriminate.
    simpl mean_axis0. cbv iota beta.
    rewrite foldl_rows by (by apply Forall_fmap).
    rewrite Hl in Hn |- *. cbv iota beta. rewrite Hn.
    unfold print, mret, M_ret, ret. simpl. eexists. split.
    + unfold mean_scores, arithmetic_mean, component. simpl.
      rewrite !length_fmap. reflexivity.
    + done.
  - unfold mean_scores. rewrite !dom_insert_L, dom_empty_L. set_solver.
  - intros path. apply glob_results_spec.
  - intros rest Hin. apply glob_results_spec in Hin as [_ Hm].
    by rewrite Paths.results_subdir_unmatched in Hm.
Qed.

(** With no matching file the array is empty, its mean is the number
    [nan], and subscripting that number raises [IndexError] before anything
    is printed. *)
Theorem compute_pass_k_no_files (temp_dir : string) (w : world) :
  temp_dir ≠ "" →
  glob_results temp_dir (fs w) = [] →
  compute_pass_k temp_dir w = (Raise IndexError, w).
Proof.
  intros Hdir Hfiles.
  destruct (Paths.temp_dir_name temp_dir Hdir) as (last & name & Hl & Hn).
  unfold MultiPLE.compute_pass_k, mbind, M_bind, bind, lift, read_fs.
  rewrite Hfiles. simpl. rewrite Hl in Hn |- *. cbv iota beta.
  by rewrite Hn.
Qed.

End Run.

End Results.

(** ** A closed run *)

Module Demo.
Import Py MultiPLE.

(** Scores as rationals, with [None] for [nan]. *)
Definition score : Type := option Q.

Definition score_add (x y : score) : score :=
  match x, y with
  | Some a, Some b => Some (Qred (a + b))
  | _, _ => None
  end.

Definition score_div (x : score) (n : nat) : score :=
  match x, n with
  | Some a, S _ => Some (Qred (a / inject_Z (Z.of_nat n)))
  | _, _ => None
  end.

(** An evaluator under which every completion passes: it reads the problem
    file and writes [{name}.results.json] into the output directory. *)
Definition passing_evaluator (output_dir file : string) (max_workers : Z)
  (files : gmap string value) : result (gmap string value) :=
  match files !! file with
  | Some (VDict problem) =>
      match problem !! "name", problem !! "completions" with
      | Some (VStr name), Some (VList completions) =>
          Ok (<[os_path_join output_dir (name +:+ ".results.json")
                := VList ((λ _, VStr "OK") <$> completions)]> files)
      | _, _ => Raise KeyError
      end
  | _ => Raise ValueError
  end.

(** An estimator that gives 1 for a results file in which every completion
    passed and 0 otherwise. *)
Definition all_or_nothing (files : gmap string value) (path : string)
  : list score :=
  match files !! path with
  | Some (VList statuses) =>
      if forallb (λ v, if v is VStr "OK" then true else false) statuses
      then [Some 1%Q; Some 1%Q; Some 1%Q]
      else [Some 0%Q; Some 0%Q; Some 0%Q]
  | _ => []
  end.

Definition repr_placeholder (v : value) : string := "<object>".

Definition doc (name : string) : value :=
  VDict (<["tests" := VStr "assert f() == 1"]>
         (<["name" := VStr name]>
          (<["prompt" := VStr "def f():"]> ∅))).

(** The task for Python over the test problems [docs]. *)
Definition task (docs : list value) : Task :=
  mkTask "py" "humaneval-py"
    [Str.nl +:+ "def"; Str.nl +:+ "#"; Str.nl +:+ "if"; Str.nl +:+ "class"]
    true (<["test" := docs]> ∅).

(** A machine with four processors, an empty [/tmp] and nothing printed. *)
Definition fresh : world :=
  mkWorld ∅ [] [] (Some 0%Q) "/tmp" 4.

(** [/tmp] after two evaluations whose result files lie in [/tmp] itself. *)
Definition scored : world :=
  mkWorld (<["/tmp/HumanEval_1.results.json" := VList [VStr "Timeout"]]>
           (<["/tmp/HumanEval_0.results.json" := VList [VStr "OK"]]> ∅))
    [] [] (Some 0%Q) "/tmp" 4.

Definition run := process_results score_add score_div None passing_evaluator
                    all_or_nothing repr_placeholder.

(** C5 on the code.  One problem, a hundred copies of a completion that
    passes: [process_results] raises [TypeError] in the first loop iteration
    and leaves the machine as it was, where the claim has it return
    [{"pass@1": 1.0, "pass@10": 1.0, "pass@100": 1.0}]. *)
Lemma one_passing_problem_raises :
  run (task [doc "HumanEval_0"]) [replicate 100 "    return 1"]
    ["assert f() == 1"] fresh
  = (Raise TypeError, fresh).
Proof. vm_compute. reflexivity. Qed.

(** C7 on the code.  Two problems, two generation lists and one reference:
    [process_results] raises [TypeError] at the first of the aligned
    triples, before any file is written or evaluated. *)
Lemma short_references_raises :
  run (task [doc "HumanEval_0"; doc "HumanEval_1"])
    [["    return 1"]; ["    return 2"]] ["assert f() == 1"] fresh
  = (Raise TypeError, fresh)
  ∧ zip3 [VTuple [VStr "def f():"; VStr "HumanEval_0"];
          VTuple [VStr "def f():"; VStr "HumanEval_1"]]
      [["    return 1"]; ["    return 2"]] ["assert f() == 1"]
    = [(VTuple [VStr "def f():"; VStr "HumanEval_0"], ["    return 1"],
        "assert f() == 1")].
Proof. split; vm_compute; reflexivity. Qed.

(** With no problem at all the exception is the [AttributeError] of
    [time.time()], after the first summary line is printed. *)
Lemma no_problem_raises :
  run (task []) [] [] fresh
  = (Raise AttributeError,
     mkWorld ∅ [LSavedProblems 0 "/tmp"] [] (Some 0%Q) "/tmp" 4).
Proof. vm_compute. reflexivity. Qed.

(** The last part alone, on a directory that holds one all-passing and one
    failing result file: every score is one half. *)
Lemma scored_means :
  (compute_pass_k score_add score_div None all_or_nothing "/tmp" scored).1
  = Ok (<["pass@100" := Some (1 # 2)%Q]>
        (<["pass@10" := Some (1 # 2)%Q]>
         (<["pass@1" := Some (1 # 2)%Q]> ∅))).
Proof. vm_compute. reflexivity. Qed.

Lemma compute_pass_k_means_witness :
  "/tmp" ≠ ""
  ∧ glob_results "/tmp" (fs scored) ≠ []
  ∧ Forall (λ path, length (all_or_nothing (fs scored) path) = 3%nat)
      (glob_results "/tmp" (fs scored))
  ∧ (∃ w',
       compute_pass_k score_add score_div None all_or_nothing "/tmp" scored
       = (Ok (Results.mean_scores score_add score_div None
                (all_or_nothing (fs scored)
                 <$> glob_results "/tmp" (fs scored))), w')
       ∧ fs w' = fs scored ∧ evaluated w' = evaluated scored)
  ∧ dom (Results.mean_scores score_add score_div None
           (all_or_nothing (fs scored) <$> glob_results "/tmp" (fs scored)))
    = ({["pass@1"; "pass@10"; "pass@100"]} : gset string)
  ∧ (∀ path,
       path ∈ glob_results "/tmp" (fs scored)
       ↔ is_Some (fs scored !! path) ∧ matches_results "/tmp" path = true)
  ∧ (∀ rest,
       os_path_join "/tmp" "results/" +:+ rest
       ∉ glob_results "/tmp" (fs scored)).
Proof.
  assert ("/tmp" ≠ "") as Hdir by discriminate.
  assert (glob_results "/tmp" (fs scored) ≠ []) as Hfiles
    by (vm_compute; discriminate).
  assert (Forall (λ path, length (all_or_nothing (fs scored) path) = 3%nat)
            (glob_results "/tmp" (fs scored))) as Hlen
    by (vm_compute; repeat constructor).
  split; [exact Hdir|]. split; [exact Hfiles|]. split; [exact Hlen|].
  exact (Results.compute_pass_k_means score_add score_div None all_or_nothing
           "/tmp" scored Hdir Hfiles Hlen).
Defined.


Lemma compute_pass_k_no_files_witness :
  "/tmp" ≠ ""
  ∧ glob_results "/tmp" (fs fresh) = []
  ∧ compute_pass_k score_add score_div None all_or_nothing "/tmp" fresh
    = (Raise IndexError, fresh).
Proof.
  assert ("/tmp" ≠ "") as Hdir by discriminate.
  split; [exact Hdir|]. split; [reflexivity|].
  exact (Results.compute_pass_k_no_files score_add score_div None
           all_or_nothing "/tmp" fresh Hdir eq_refl).
Defined.

End Demo.

(** ** What the truncation keeps and what it removes *)

Module Blocks.
Import Py MultiPLE Occ SplitFacts Truncation.

(** Joining all the elements of a split gives the string back. *)
Lemma join_split_from alts adv s :
  Str.join "" (Re.split_from alts adv s) = s.
Proof.
  pattern adv, s. revert adv s. apply (split_from_ind alts). cbv beta.
  intros adv s IH.
  destruct (Re.search alts adv s) as [[[pre w] post]|] eqn:E.
  - rewrite (split_from_Some _ _ _ _ _ _ E), !join_cons, (IH _ _ _ eq_refl).
    by apply Re.search_Some in E as (_ & -> & _).
  - by rewrite (split_from_None _ _ _ E).
Qed.

Lemma join_app (l1 l2 : list string) :
  Str.join "" (l1 ++ l2) = Str.join "" l1 +:+ Str.join "" l2.
Proof.
  induction l1 as [|x l1 IH]; [done|].
  change ((x :: l1) ++ l2) with (x :: (l1 ++ l2)).
  by rewrite !join_cons, IH, Str.app_assoc.
Qed.

(** The remaining text is a leading part of the string: the function only
    cuts at the end. *)
Theorem remove_last_block_is_prefix (stop_words : list string) (s : string) :
  forallb Re.literal stop_words = true →
  ∃ removed,
    s = remove_last_block s stop_words +:+ removed
    ∧ (String.length (remove_last_block s stop_words) ≤ String.length s)%nat.
Proof.
  intros _. unfold remove_last_block, Re.split, drop_last.
  set (l := Re.split_from (Re.alternatives stop_words) false s).
  exists (Str.join "" (drop (length l - 2) l)).
  assert (s = Str.join "" (take (length l - 2) l)
              +:+ Str.join "" (drop (length l - 2) l)) as Heq.
  { rewrite <- join_app, take_drop. unfold l. by rewrite join_split_from. }
  split; [done|]. apply (f_equal String.length) in Heq.
  rewrite Str.length_app in Heq. lia.
Qed.

Section Configured.

Variable load_dataset : string → string → gmap string (list value).

(** On a string that is not empty the postprocessor returns a strictly
    shorter string, so the empty string is its only fixed point. *)
Theorem postprocess_shortens language self (s : string) (idx : Z) :
  GeneralMultiPLE_init load_dataset language = Ok self →
  (s ≠ "" →
   (String.length (postprocess_generation self s idx) < String.length s)%nat)
  ∧ (postprocess_generation self s idx = s ↔ s = "").
Proof.
  intros Hinit.
  destruct (Postprocess.init_stop_words_shape _ _ _ Hinit)
    as (_ & Halt & Hne & _).
  assert (s ≠ "" →
          (String.length (postprocess_generation self s idx)
           < String.length s)%nat) as Hlt.
  { intros Hs. unfold postprocess_generation, remove_last_block, Re.split.
    rewrite Halt.
    destruct (Re.search (stop_words self) false s) as [[[pre w] post]|] eqn:E.
    - destruct (remove_last_match (stop_words self) s Hne)
        as (r & w' & rest & Heq & Hin & _ & ->); [by rewrite E|].
      pose proof (proj1 (Forall_forall _ _) Hne w' Hin) as Hw.
      apply (f_equal String.length) in Heq.
      rewrite !Str.length_app in Heq.
      destruct w'; [done|simpl in Heq; lia].
    - rewrite (remove_no_match _ _ E). destruct s; [done|simpl; lia]. }
  split; [done|]. split.
  - intros Hfix. destruct s as [|a s]; [done|].
    assert (String a s ≠ "") as Hs by done.
    specialize (Hlt Hs). rewrite Hfix in Hlt. lia.
  - intros ->. unfold postprocess_generation, remove_last_block, Re.split.
    rewrite Halt. apply remove_no_match.
    destruct (Re.search (stop_words self) false "") as [[[pre w] post]|] eqn:E;
      [|done].
    apply Re.search_Some in E as (Hin & Heq & _).
    pose proof (proj1 (Forall_forall _ _) Hne w Hin) as Hw.
    destruct pre; [|discriminate]. by destruct w.
Qed.

(** A generation that ends with a stop marker loses exactly that marker. *)
Theorem postprocess_trailing_marker language self (body w : string)
    (idx : Z) :
  GeneralMultiPLE_init load_dataset language = Ok self →
  w ∈ stop_words self →
  postprocess_generation self (body +:+ w) idx = body.
Proof.
  intros Hinit Hin.
  destruct (Postprocess.init_stop_words_shape _ _ _ Hinit)
    as (_ & _ & _ & Hhd).
  pose proof (Postprocess.init_stop_words _ _ _ Hinit) as Hsw.
  assert (last_occurrence (stop_words self) (body +:+ w) (String.length body))
    as [Hocc Hlast].
  { apply (last_match_is_last_occurrence (ascii_of_nat 10) _ _ body w "");
      [done|by rewrite Str.app_nil_r|done|by rewrite Hsw]. }
  destruct (remove_last_block_headed (ascii_of_nat 10) (stop_words self)
              (body +:+ w)) as (n & [Hn Hmax] & Hr);
    [by rewrite Hsw|done|by eexists|].
  unfold postprocess_generation. rewrite Hr.
  replace n with (String.length body)
    by (apply Nat.le_antisymm; [by apply Hmax|by apply Hlast]).
  apply substring_0_app.
Qed.

End Configured.

Lemma remove_last_block_is_prefix_witness :
  forallb Re.literal (stop_words Postprocess.py_task) = true
  ∧ ∃ removed,
      Postprocess.two_blocks
      = remove_last_block Postprocess.two_blocks
          (stop_words Postprocess.py_task) +:+ removed
      ∧ (String.length
           (remove_last_block Postprocess.two_blocks
              (stop_words Postprocess.py_task))
         ≤ String.length Postprocess.two_blocks)%nat.
Proof.
  split; [reflexivity|].
  exact (remove_last_block_is_prefix (stop_words Postprocess.py_task)
           Postprocess.two_blocks eq_refl).
Defined.

Lemma postprocess_shortens_witness :
  GeneralMultiPLE_init Postprocess.no_dataset "py" = Ok Postprocess.py_task
  ∧ (Postprocess.one_block ≠ "" →
     (String.length
        (postprocess_generation Postprocess.py_task Postprocess.one_block 0)
      < String.length Postprocess.one_block)%nat)
  ∧ (postprocess_generation Postprocess.py_task Postprocess.one_block 0
     = Postprocess.one_block ↔ Postprocess.one_block = "").
Proof.
  split; [reflexivity|].
  exact (postprocess_shortens Postprocess.no_dataset "py" Postprocess.py_task
           Postprocess.one_block 0 eq_refl).
Defined.

Lemma postprocess_trailing_marker_witness :
  GeneralMultiPLE_init Postprocess.no_dataset "py" = Ok Postprocess.py_task
  ∧ Str.nl +:+ "class" ∈ stop_words Postprocess.py_task
  ∧ postprocess_generation Postprocess.py_task
      ("    return 1" +:+ Str.nl +:+ "class") 0
    = "    return 1".
Proof.
  assert (Str.nl +:+ "class" ∈ stop_words Postprocess.py_task) as Hin
    by (by apply (bool_decide_unpack
                    (Str.nl +:+ "class" ∈ stop_words Postprocess.py_task))).
  split; [reflexivity|]. split; [exact Hin|].
  exact (postprocess_trailing_marker Postprocess.no_dataset "py"
           Postprocess.py_task "    return 1" (Str.nl +:+ "class") 0
           eq_refl Hin).
Defined.

End Blocks.

(** ** The prompt builder *)

Module Prompt.
Import Py MultiPLE.

(** The characters [str.strip()] removes: those for which [str.isspace()]
    holds.  A character is a code point below 256. *)
Definition is_space (c : ascii) : bool :=
  let n := nat_of_ascii c in
  ((9 <=? n) && (n <=? 13) || (28 <=? n) && (n <=? 32)
   || (n =? 133) || (n =? 160))%nat.
Arguments is_space : simpl never.





(** Every character of [s] is white space. *)
Fixpoint all_space (s : string) : bool :=
  match s with
  | EmptyString => true
  | String a s' => is_space a && all_space s'
  end.






Lemma all_space_app (a b : string) :
  all_space (a +:+ b) = all_space a && all_space b.
Proof.
  induction a as [|x a IH]; [done|].
  rewrite Str.app_cons. simpl. by rewrite IH, andb_assoc.
Qed.











End Prompt.

(** ** The registry *)

Module Registry.
Import Py MultiPLE.

Lemma registry_keys_distinct
    (load_dataset : string → string → gmap string (list value)) :
  NoDup ((λ language,
            ("multiple-" +:+ language, create_task load_dataset language))
         <$> LANGUAGES).*1.
Proof.
  rewrite <- list_fmap_compose.
  match goal with |- ?G => by apply (bool_decide_unpack G) end.
Qed.

(** [create_all_tasks] has nineteen entries, and its entries are exactly the
    constructors of the nineteen languages under the keys
    [multiple-{language}]: no other key is present. *)
Theorem create_all_tasks_entries
    (load_dataset : string → string → gmap string (list value))
    (key : string) (ctor : unit → result Task) :
  size (create_all_tasks load_dataset) = 19%nat
  ∧ (create_all_tasks load_dataset !! key = Some ctor
     ↔ ∃ language,
         language ∈ LANGUAGES
         ∧ key = "multiple-" +:+ language
         ∧ ctor = create_task load_dataset language).
Proof.
  unfold create_all_tasks. split.
  - rewrite map_size_list_to_map by apply registry_keys_distinct.
    by rewrite length_fmap.
  - rewrite <- elem_of_list_to_map by apply registry_keys_distinct.
    rewrite list_elem_of_fmap. split.
    + intros (language & [= -> ->] & Hin). by exists language.
    + intros (language & Hin & -> & ->). by exists language.
Qed.

End Registry.

(** ** Reading the data set and running the evaluator *)

Module Reading.
Import Py MultiPLE.

Section Run.

Context {R : Type}.
Variable radd : R → R → R.
Variable rdiv : R → nat → R.
Variable nan : R.
Variable evaluate_problem :
  string → string → Z → gmap string value → result (gmap string value).
Variable for_file : gmap string value → string → list R.
Variable py_repr : value → string.

#[local] Abbreviation process_results :=
  (process_results radd rdiv nan evaluate_problem for_file py_repr).
#[local] Abbreviation compute_pass_k := (compute_pass_k radd rdiv nan for_file).
#[local] Abbreviation evaluate_problems :=
  (@evaluate_problems R evaluate_problem).

(** A record that is a dictionary without a prompt or without a name. *)
Definition lacks_field (v : value) : Prop :=
  ∃ d, v = VDict d ∧ (d !! "prompt" = None ∨ d !! "name" = None).

Definition is_dict (v : value) : Prop := ∃ d, v = VDict d.

(** The comprehension reads the documents below the bound and no other. *)
Lemma prompts_names_take i n docs :
  prompts_names_from i n docs = prompts_names_from i n (take (n - i) docs).
Proof.
  revert i; induction docs as [|doc docs IH]; intros i.
  - by rewrite take_nil.
  - destruct (Nat.ltb_spec i n) as [Hlt|Hge].
    + replace (n - i)%nat with (S (n - S i)) by lia. simpl.
      destruct (Nat.ltb_spec i n); [|lia]. by rewrite IH.
    + replace (n - i)%nat with 0%nat by lia.
      rewrite take_0. by apply Results.prompts_names_past.
Qed.

Lemma prompts_names_KeyError i n docs :
  Forall is_dict (take (n - i) docs) →
  Exists lacks_field (take (n - i) docs) →
  prompts_names_from i n docs = Raise KeyError.
Proof.
  revert i; induction docs as [|doc docs IH]; intros i Hd Hl.
  - rewrite take_nil in Hl. by apply Exists_nil in Hl.
  - destruct (Nat.ltb_spec i n) as [Hlt|Hge].
    2: { replace (n - i)%nat with 0%nat in Hl by lia.
         rewrite take_0 in Hl. by apply Exists_nil in Hl. }
    replace (n - i)%nat with (S (n - S i)) in Hd, Hl by lia.
    rewrite firstn_cons in Hd, Hl.
    apply Forall_cons in Hd as [[d ->] Hd]. simpl.
    destruct (Nat.ltb_spec i n); [|lia].
    destruct (d !! "prompt") as [p|] eqn:Hp; [|done].
    destruct (d !! "name") as [nm|] eqn:Hn; [|done].
    simpl. apply Exists_cons in Hl as [(d' & [= <-] & Hlack)|Hl].
    + destruct Hlack; congruence.
    + by rewrite IH.
Qed.

(** When the records the call reads are dictionaries and one of them has
    no prompt or no name, [process_results] raises [KeyError] while it
    builds its list of prompts and names; nothing is written, printed or
    evaluated. *)
Theorem process_results_missing_field (self : Task)
    (generations : list (list string)) (references : list string)
    (w : world) (docs : list value) :
  get_dataset self = Ok docs →
  Forall is_dict (take (length generations) docs) →
  Exists lacks_field (take (length generations) docs) →
  process_results self generations references w = (Raise KeyError, w).
Proof.
  intros Hdocs Hd Hl.
  unfold MultiPLE.process_results, mbind, M_bind, bind, lift.
  rewrite Hdocs, prompts_names_KeyError; [done|..];
    by rewrite Nat.sub_0_r.
Qed.

Lemma save_problem_language (self self' : Task) :
  language self = language self' →
  @save_problem R py_repr self = @save_problem R py_repr self'.
Proof. intros H. unfold save_problem. by rewrite H. Qed.

(** The call depends on the data set only through its first
    [len(generations)] records: two tasks for one language whose data sets
    agree there behave alike, whatever follows in either data set. *)
Theorem process_results_reads_prefix (self self' : Task)
    (generations : list (list string)) (references : list string)
    (w : world) (docs docs' : list value) :
  get_dataset self = Ok docs →
  get_dataset self' = Ok docs' →
  language self = language self' →
  take (length generations) docs = take (length generations) docs' →
  process_results self generations references w
  = process_results self' generations references w.
Proof.
  intros Hdocs Hdocs' Hlang Htake.
  unfold MultiPLE.process_results, mbind, M_bind, bind, lift.
  rewrite Hdocs, Hdocs'.
  rewrite (prompts_names_take 0 _ docs), (prompts_names_take 0 _ docs').
  rewrite !Nat.sub_0_r, Htake.
  by rewrite (save_problem_language self self' Hlang).
Qed.

(** With no generations no record is read, whatever the data set holds:
    the call prints that it saved no problem and raises the
    [AttributeError] of [time.time()]. *)
Theorem process_results_no_generations (self : Task)
    (references : list string) (w : world) (docs : list value) :
  get_dataset self = Ok docs →
  process_results self [] references w
  = (Raise AttributeError,
     mkWorld (fs w) (stdout w ++ [LSavedProblems 0 (tempdir w)])
       (evaluated w) (clock w) (tempdir w) (cpus w)).
Proof.
  intros Hdocs.
  unfold MultiPLE.process_results, mbind, M_bind, bind, lift.
  rewrite Hdocs. simpl. by rewrite Results.prompts_names_past by lia.
Qed.

End Run.

End Reading.

(** ** The evaluation loop and the printed scores *)

Module Evaluating.
Import Py MultiPLE.

Section Run.

Context {R : Type}.
Variable radd : R → R → R.
Variable rdiv : R → nat → R.
Variable nan : R.
Variable evaluate_problem :
  string → string → Z → gmap string value → result (gmap string value).
Variable for_file : gmap string value → string → list R.

#[local] Abbreviation compute_pass_k := (compute_pass_k radd rdiv nan for_file).
#[local] Abbreviation evaluate_problems :=
  (@evaluate_problems R evaluate_problem).
#[local] Abbreviation arithmetic_mean := (Results.arithmetic_mean radd rdiv nan).
#[local] Abbreviation component := (Results.component nan).
#[local] Abbreviation mean_scores := (Results.mean_scores radd rdiv nan).


(** The loop stops at the first file on which the evaluator fails: the
    exception leaves the loop, the failing call is the last one made, and
    the files after it are not evaluated. *)
Theorem evaluate_problems_stops (output_dir : string) (max_workers : Z)
    (before after : list string) (file : string) (e : exn) (w : world) :
  (∀ f files, f ∈ before →
     ∃ files', evaluate_problem output_dir f max_workers files = Ok files') →
  (∀ files, evaluate_problem output_dir file max_workers files = Raise e) →
  ∃ w',
    evaluate_problems output_dir max_workers (before ++ file :: after) w
    = (Raise e, w')
    ∧ evaluated w'
      = evaluated w ++ ((λ f, mkCall output_dir f max_workers)
                        <$> before ++ [file]).
Proof.
  revert w; induction before as [|f before IH]; intros w Hok Hfail.
  - simpl. rewrite Results.evaluate_problems_cons. cbv zeta.
    rewrite Hfail. by eexists.
  - change ((f :: before) ++ file :: after)
      with (f :: (before ++ file :: after)).
    rewrite Results.evaluate_problems_cons. cbv zeta.
    destruct (Hok f (fs w)) as [fs' ->]; [by left|].
    match goal with
    | |- context [evaluate_problems _ _ _ ?w1] =>
        destruct (IH w1) as (w' & Hrun & Hcalls)
    end.
    { intros g fs0 Hg. apply Hok. by right. }
    { done. }
    exists w'. rewrite Hrun, Hcalls. simpl. by rewrite <- !app_assoc.
Qed.

Lemma split_char_no_sep sep s :
  Str.contains_char sep s = false → Str.split_char sep s = [s].
Proof.
  induction s as [|a s IH]; [done|]. simpl.
  intros [Ha Hs]%orb_false_iff. by rewrite Ha, IH.
Qed.

Lemma split_char_app sep a b :
  Str.split_char sep (a +:+ String sep b)
  = Str.split_char sep a ++ Str.split_char sep b.
Proof.
  induction a as [|x a IH].
  - rewrite Str.app_nil_l. simpl. by rewrite Ascii.eqb_refl.
  - rewrite Str.app_cons. simpl. rewrite IH.
    destruct (Ascii.eqb x sep); [done|].
    pose proof (Paths.split_char_nonnil sep a) as Hnil.
    by destruct (Str.split_char sep a).
Qed.

(** The label of the score lines: the last component of the directory
    name, or the one before a trailing slash. *)
Lemma label_last_component dir base :
  base ≠ "" → Str.contains_char "/" base = false →
  seq_getitem (Str.split_char "/" (dir +:+ "/" +:+ base)) (-1) = Ok base.
Proof.
  intros Hb Hs. change ("/" +:+ base) with (String "/" base).
  rewrite split_char_app, (split_char_no_sep _ base Hs).
  destruct (Paths.seq_getitem_from_end
              (Str.split_char "/" dir ++ [base]) 1) as (x & Hx & Hl).
  { rewrite length_app. simpl. lia. }
  change (- Z.of_nat 1)%Z with (-1)%Z in Hx. rewrite Hx. f_equal.
  rewrite length_app in Hl. simpl in Hl.
  rewrite lookup_app_r in Hl by lia.
  replace (length (Str.split_char "/" dir) + 1 - 1
           - length (Str.split_char "/" dir))%nat with 0%nat in Hl by lia.
  by injection Hl.
Qed.

Lemma label_before_slash dir base :
  Str.contains_char "/" base = false →
  seq_getitem (Str.split_char "/" (dir +:+ "/" +:+ base +:+ "/")) (-1) = Ok ""
  ∧ seq_getitem (Str.split_char "/" (dir +:+ "/" +:+ base +:+ "/")) (-2)
    = Ok base.
Proof.
  intros Hs.
  replace (dir +:+ "/" +:+ base +:+ "/")
    with ((dir +:+ String "/" base) +:+ String "/" "")
    by (by rewrite !Str.app_assoc).
  rewrite !split_char_app, (split_char_no_sep _ base Hs). simpl.
  set (l := Str.split_char "/" dir).
  destruct (Paths.seq_getitem_from_end ((l ++ [base]) ++ [""]) 1)
    as (x & Hx & Hl); [rewrite !length_app; simpl; lia|].
  destruct (Paths.seq_getitem_from_end ((l ++ [base]) ++ [""]) 2)
    as (y & Hy & Hl'); [rewrite !length_app; simpl; lia|].
  change (- Z.of_nat 1)%Z with (-1)%Z in Hx.
  change (- Z.of_nat 2)%Z with (-2)%Z in Hy.
  rewrite Hx, Hy. rewrite !length_app in Hl, Hl'. simpl in Hl, Hl'.
  rewrite lookup_app_r in Hl by (rewrite length_app; simpl; lia).
  rewrite lookup_app_l in Hl' by (rewrite length_app; simpl; lia).
  rewrite lookup_app_r in Hl' by lia.
  rewrite length_app in Hl. simpl in Hl.
  replace (length l + 1 + 1 - 1 - (length l + 1))%nat with 0%nat in Hl by lia.
  replace (length l + 1 + 1 - 2 - length l)%nat with 0%nat in Hl' by lia.
  injection Hl as <-. injection Hl' as <-. done.
Qed.

(** On success the last part prints the three scores, each with the last
    component of the directory name as its label (the one before a
    trailing slash when there is one), then the mapping it returns; it
    changes nothing else. *)
Theorem compute_pass_k_prints (temp_dir dir base : string) (w : world) :
  base ≠ "" → Str.contains_char "/" base = false →
  temp_dir = dir +:+ "/" +:+ base ∨ temp_dir = dir +:+ "/" +:+ base +:+ "/" →
  glob_results temp_dir (fs w) ≠ [] →
  Forall (λ path, length (for_file (fs w) path) = 3%nat)
    (glob_results temp_dir (fs w)) →
  compute_pass_k temp_dir w
  = (Ok (mean_scores (for_file (fs w) <$> glob_results temp_dir (fs w))),
     mkWorld (fs w)
       (stdout w
        ++ [LScore base 1
              (arithmetic_mean
                 (component 0
                  <$> (for_file (fs w) <$> glob_results temp_dir (fs w))));
            LScore base 10
              (arithmetic_mean
                 (component 1
                  <$> (for_file (fs w) <$> glob_results temp_dir (fs w))));
            LScore base 100
              (arithmetic_mean
                 (component 2
                  <$> (for_file (fs w) <$> glob_results temp_dir (fs w))));
            LResults
              (mean_scores
                 (for_file (fs w) <$> glob_results temp_dir (fs w)))])
       (evaluated w) (clock w) (tempdir w) (cpus w)).
Proof.
  intros Hbase Hsep Hdir Hfiles Hlen.
  assert (∃ last,
            seq_getitem (Str.split_char "/" temp_dir) (-1) = Ok last
            ∧ (if bool_decide (last ≠ "")
               then seq_getitem (Str.split_char "/" temp_dir) (-1)
               else seq_getitem (Str.split_char "/" temp_dir) (-2))
              = Ok base) as (last & Hl & Hn).
  { destruct Hdir as [-> | ->].
    - exists base. rewrite (label_last_component dir base Hbase Hsep).
      by rewrite bool_decide_true.
    - destruct (label_before_slash dir base Hsep) as [H1 H2].
      exists "". rewrite H1, H2. by rewrite bool_decide_false by auto. }
  unfold MultiPLE.compute_pass_k, mbind, M_bind, bind, lift, read_fs.
  destruct (glob_results temp_dir (fs w)) as [|path paths] eqn:Hg; [done|].
  rewrite fmap_cons, Results.np_array_rows
    by (rewrite <- fmap_cons; by apply Forall_fmap).
  apply Forall_cons in Hlen as [Hp Hps].
  destruct (for_file (fs w) path) as [|a [|b [|c [|]]]] eqn:Hv;
    try discriminate.
  simpl mean_axis0. cbv iota beta.
  rewrite (Results.foldl_rows radd nan) by (by apply Forall_fmap).
  rewrite Hl in Hn |- *. cbv iota beta. rewrite Hn.
  unfold print, mret, M_ret, ret. simpl.
  unfold Results.mean_scores, Results.arithmetic_mean, Results.component.
  simpl. rewrite !length_fmap. rewrite <- !app_assoc. reflexivity.
Qed.

End Run.

End Evaluating.

(** ** Closed runs of the reading, the loop and the printing *)

Module Runs.
Import Py MultiPLE Demo.

(** A record without a name. *)
Definition nameless : value :=
  VDict (<["tests" := VStr "assert g() == 2"]>
         (<["prompt" := VStr "def g():"]> ∅)).


Definition picky_evaluator (output_dir file : string) (max_workers : Z)
  (files : gmap string value) : result (gmap string value) :=
  if bool_decide (file = "/tmp/bad.json") then Raise ValueError else Ok files.

Lemma process_results_missing_field_witness :
  let docs := [doc "HumanEval_0"; nameless] in
  get_dataset (task docs) = Ok docs
  ∧ Forall Reading.is_dict (take 2 docs)
  ∧ Exists Reading.lacks_field (take 2 docs)
  ∧ run (task docs) [["    return 1"]; ["    return 2"]]
      ["assert f() == 1"; "assert g() == 2"] fresh
    = (Raise KeyError, fresh).
Proof.
  cbv zeta.
  assert (Forall Reading.is_dict (take 2 [doc "HumanEval_0"; nameless]))
    as Hd by (repeat constructor; by eexists).
  assert (Exists Reading.lacks_field (take 2 [doc "HumanEval_0"; nameless]))
    as Hl.
  { apply Exists_cons_tl, Exists_cons_hd. eexists. split; [reflexivity|].
    by right. }
  split; [reflexivity|]. split; [exact Hd|]. split; [exact Hl|].
  exact (Reading.process_results_missing_field score_add score_div None
           passing_evaluator all_or_nothing repr_placeholder
           (task [doc "HumanEval_0"; nameless])
           [["    return 1"]; ["    return 2"]]
           ["assert f() == 1"; "assert g() == 2"] fresh
           [doc "HumanEval_0"; nameless] eq_refl Hd Hl).
Defined.

Lemma process_results_reads_prefix_witness :
  let docs := [doc "HumanEval_0"; doc "HumanEval_1"] in
  let docs' := [doc "HumanEval_0"; nameless; VInt 7] in
  get_dataset (task docs) = Ok docs
  ∧ get_dataset (task docs') = Ok docs'
  ∧ language (task docs) = language (task docs')
  ∧ take 1 docs = take 1 docs'
  ∧ run (task docs) [["    return 1"]] ["assert f() == 1"] fresh
    = run (task docs') [["    return 1"]] ["assert f() == 1"] fresh.
Proof.
  cbv zeta. split; [reflexivity|]. split; [reflexivity|].
  split; [reflexivity|]. split; [reflexivity|].
  exact (Reading.process_results_reads_prefix score_add score_div None
           passing_evaluator all_or_nothing repr_placeholder
           (task [doc "HumanEval_0"; doc "HumanEval_1"])
           (task [doc "HumanEval_0"; nameless; VInt 7])
           [["    return 1"]] ["assert f() == 1"] fresh _ _
           eq_refl eq_refl eq_refl eq_refl).
Defined.

Lemma process_results_no_generations_witness :
  get_dataset (task [nameless; VInt 7]) = Ok [nameless; VInt 7]
  ∧ run (task [nameless; VInt 7]) [] ["assert f() == 1"] fresh
    = (Raise AttributeError,
       mkWorld (fs fresh) (stdout fresh ++ [LSavedProblems 0 (tempdir fresh)])
         (evaluated fresh) (clock fresh) (tempdir fresh) (cpus fresh)).
Proof.
  split; [reflexivity|].
  exact (Reading.process_results_no_generations score_add score_div None
           passing_evaluator all_or_nothing repr_placeholder
           (task [nameless; VInt 7]) ["assert f() == 1"] fresh _ eq_refl).
Defined.



Lemma picky_evaluator_ok (file : string) (files : gmap string value) :
  file ∈ ["/tmp/a.json"] →
  ∃ files', picky_evaluator "/tmp/results/" file 3 files = Ok files'.
Proof.
  intros ->%list_elem_of_singleton. by eexists.
Qed.

Lemma evaluate_problems_stops_witness :
  (∀ f files, f ∈ ["/tmp/a.json"] →
     ∃ files', picky_evaluator "/tmp/results/" f 3 files = Ok files')
  ∧ (∀ files,
       picky_evaluator "/tmp/results/" "/tmp/bad.json" 3 files
       = Raise ValueError)
  ∧ ∃ w' : world (R := score),
      evaluate_problems picky_evaluator "/tmp/results/" 3
        (["/tmp/a.json"] ++ "/tmp/bad.json" :: ["/tmp/c.json"]) fresh
      = (Raise ValueError, w')
      ∧ evaluated w'
        = evaluated fresh ++ ((λ f, mkCall "/tmp/results/" f 3)
                              <$> ["/tmp/a.json"] ++ ["/tmp/bad.json"]).
Proof.
  split; [exact picky_evaluator_ok|]. split; [reflexivity|].
  exact (Evaluating.evaluate_problems_stops picky_evaluator "/tmp/results/" 3
           ["/tmp/a.json"] ["/tmp/c.json"] "/tmp/bad.json" ValueError fresh
           picky_evaluator_ok (λ _, eq_refl)).
Defined.

Lemma compute_pass_k_prints_witness :
  "tmp" ≠ "" ∧ Str.contains_char "/" "tmp" = false
  ∧ ("/tmp" = "" +:+ "/" +:+ "tmp" ∨ "/tmp" = "" +:+ "/" +:+ "tmp" +:+ "/")
  ∧ glob_results "/tmp" (fs scored) ≠ []
  ∧ Forall (λ path, length (all_or_nothing (fs scored) path) = 3%nat)
      (glob_results "/tmp" (fs scored))
  ∧ (compute_pass_k score_add score_div None all_or_nothing "/tmp" scored).2
    = mkWorld (fs scored)
        [LScore "tmp" 1 (Some (1 # 2)%Q); LScore "tmp" 10 (Some (1 # 2)%Q);
         LScore "tmp" 100 (Some (1 # 2)%Q);
         LResults (<["pass@100" := Some (1 # 2)%Q]>
                   (<["pass@10" := Some (1 # 2)%Q]>
                    (<["pass@1" := Some (1 # 2)%Q]> ∅)))]
        [] (Some 0%Q) "/tmp" 4.
Proof.
  assert ("tmp" ≠ "") as Hb by discriminate.
  assert ("/tmp" = "" +:+ "/" +:+ "tmp"
          ∨ "/tmp" = "" +:+ "/" +:+ "tmp" +:+ "/") as Hd by (by left).
  assert (glob_results "/tmp" (fs scored) ≠ []) as Hfiles
    by (vm_compute; discriminate).
  assert (Forall (λ path, length (all_or_nothing (fs scored) path) = 3%nat)
            (glob_results "/tmp" (fs scored))) as Hlen
    by (vm_compute; repeat constructor).
  split; [exact Hb|]. split; [reflexivity|]. split; [exact Hd|].
  split; [exact Hfiles|]. split; [exact Hlen|].
  rewrite (Evaluating.compute_pass_k_prints score_add score_div None
             all_or_nothing "/tmp" "" "tmp" scored Hb eq_refl Hd Hfiles Hlen).
  vm_compute. reflexivity.
Defined.

End Runs.

(** ** No stop word *)

Module NoStopWords.
Import Py MultiPLE SplitFacts.

Lemma search_empty_alternative s :
  Re.search [""] false s = Some ("", "", s).
Proof. by destruct s. Qed.

Lemma search_empty_alternative_adv c s :
  Re.search [""] true (String c s) = Some (String c "", "", s).
Proof. simpl. by rewrite search_empty_alternative. Qed.

(** After an empty match the split goes on character by character and
    ends with an empty piece; behind at least one character that piece
    follows an empty delimiter. *)
Lemma split_after_empty_match s :
  ∃ l, Re.split_from [""] true s = l ++ [""]
       ∧ (s ≠ "" → ∃ l', l = l' ++ [""]).
Proof.
  induction s as [|c s (l & Hl & Hs)].
  - exists []. by rewrite split_from_None.
  - rewrite (split_from_Some _ _ _ _ _ _ (search_empty_alternative_adv c s)).
    simpl. rewrite Hl. exists (String c "" :: "" :: l). split; [done|].
    intros _. destruct s as [|c' s].
    + rewrite split_from_None in Hl by done.
      apply (app_inj_tail []) in Hl as [<- _]. by exists [String c ""].
    + destruct Hs as [l' ->]; [done|]. by exists (String c "" :: "" :: l').
Qed.

Lemma join_drop_last_empties (l : list string) :
  Str.join "" (drop_last 2 (l ++ [""; ""])) = Str.join "" (l ++ [""; ""]).
Proof.
  unfold drop_last. rewrite length_app. simpl.
  replace (length l + 2 - 2)%nat with (length l) by lia.
  rewrite take_app_length, Blocks.join_app. by rewrite Str.app_nil_r.
Qed.

(** With an empty list of stop words the pattern is [()], which matches
    the empty string at every position: the last two elements of the split
    are empty, and [remove_last_block] returns the string unchanged. *)
Theorem remove_last_block_no_stop_words (s : string) :
  remove_last_block s [] = s.
Proof.
  unfold remove_last_block, Re.split. simpl Re.alternatives.
  assert (∃ l, Re.split_from [""] false s = l ++ [""; ""]) as [l Hl].
  { rewrite (split_from_Some _ _ _ _ _ _ (search_empty_alternative s)).
    simpl. destruct s as [|c s].
    - exists [""]. by rewrite split_from_None.
    - destruct (split_after_empty_match (String c s)) as (l & Hl & [l' ->]);
        [done|].
      rewrite Hl. exists ("" :: "" :: l'). simpl. by rewrite <- !app_assoc. }
  rewrite Hl, join_drop_last_empties, <- Hl.
  apply Blocks.join_split_from.
Qed.

End NoStopWords.
